(** * KMD Nova ESDH client: a shallow embedding of [kmd_nova/api.py]

    The class [NovaESDH] talks to a remote case-management system over HTTP.
    Its methods are embedded as computations in a state-and-exception monad
    over the instance attributes ([self]) and an explicit world (the clock
    readings taken, the uuids drawn, the requests issued).  Python values that
    come back from [response.json()] are kept as a tree of JSON values, and the
    Python exceptions the code can run into are constructors of [exn]. *)

From Stdlib Require Import ZArith List String Ascii Bool Lia.
From Stdlib Require Import Floats.SpecFloat.
From ExtLib Require Import Structures.Monad.
Import ListNotations.
Import MonadNotation.

Set Warnings "-register-all".
Local Open Scope string_scope.
Local Open Scope monad_scope.
Local Open Scope Z_scope.

(** ** Python values and exceptions *)

Module Py.

(** What [json.loads] can produce: [None], [bool], [int], [float], [str],
    [list] and [dict].  A [dict] keeps its insertion order, so it is an
    association list; lookup takes the first binding of a key. *)
Inductive json : Type :=
| JNull
| JBool (b : bool)
| JInt (n : Z)
| JFloat (f : spec_float)
| JStr (s : string)
| JList (xs : list json)
| JDict (kvs : list (string * json)).

(** The exceptions that [api.py] raises itself or lets through. *)
Inductive exn : Type :=
| ValueError (msg : string)
| KeyError (key : string)
| TypeError
| AttributeError
| OverflowError
| JSONDecodeError
| OSError
| ConnectionError
| HTTPError (status_code : Z).

Inductive result (A : Type) : Type :=
| Ok (a : A)
| Raise (e : exn).

Arguments Ok {A} a.
Arguments Raise {A} e.

Definition result_bind {A B} (r : result A) (k : A -> result B) : result B :=
  match r with
  | Ok a => k a
  | Raise e => Raise e
  end.

#[export] Instance Monad_result : Monad result :=
  {| ret := @Ok; bind := @result_bind |}.

Fixpoint dict_lookup (kvs : list (string * json)) (k : string) : option json :=
  match kvs with
  | [] => None
  | (k', v) :: rest => if String.eqb k' k then Some v else dict_lookup rest k
  end.

(** [v[k]] with a string key [k]: a [dict] looks the key up, every other
    value refuses a string subscript. *)
Definition subscript (v : json) (k : string) : result json :=
  match v with
  | JDict kvs =>
      match dict_lookup kvs k with
      | Some x => Ok x
      | None => Raise (KeyError k)
      end
  | _ => Raise TypeError
  end.

(** [v.get(k, default)]: only a [dict] has the method. *)
Definition dict_get (v : json) (k : string) (default : json) : result json :=
  match v with
  | JDict kvs =>
      match dict_lookup kvs k with
      | Some x => Ok x
      | None => Ok default
      end
  | _ => Raise AttributeError
  end.

Fixpoint chars (s : string) : list json :=
  match s with
  | EmptyString => []
  | String c rest => JStr (String c EmptyString) :: chars rest
  end.

(** The items a [for] loop over [v] visits: the elements of a list, the keys
    of a dict, the characters of a string. *)
Definition iterate (v : json) : result (list json) :=
  match v with
  | JList xs => Ok xs
  | JDict kvs => Ok (map (fun kv => JStr (fst kv)) kvs)
  | JStr s => Ok (chars s)
  | _ => Raise TypeError
  end.

(** [out = []; for x in xs: out.append(f(x))], stopping at the first
    exception. *)
Fixpoint for_each {A B} (f : A -> result B) (xs : list A) : result (list B) :=
  match xs with
  | [] => Ok []
  | x :: rest =>
      match f x with
      | Ok y =>
          match for_each f rest with
          | Ok ys => Ok (y :: ys)
          | Raise e => Raise e
          end
      | Raise e => Raise e
      end
  end.

(** Truthiness of an optional string argument ([None] and [""] are falsy). *)
Definition truthy (a : option string) : bool :=
  match a with
  | None => false
  | Some s => negb (String.eqb s "")
  end.

(** [any(xs)] over already evaluated truth values. *)
Definition any (xs : list bool) : bool := existsb (fun b => b) xs.

Definition of_option (a : option string) : json :=
  match a with
  | None => JNull
  | Some s => JStr s
  end.

(** [int(f)] for a float: truncation towards zero. *)
Definition int_of_float (f : spec_float) : result Z :=
  match f with
  | S754_zero _ => Ok 0
  | S754_infinity _ => Raise OverflowError
  | S754_nan => Raise (ValueError "cannot convert float NaN to integer")
  | S754_finite s m e =>
      let a := match e with
               | Z0 => Zpos m
               | Zpos p => Z.shiftl (Zpos m) (Zpos p)
               | Zneg p => Z.shiftr (Zpos m) (Zpos p)
               end in
      Ok (if s then - a else a)
  end.

(** [int(v)].  Parsing the digits of a string is the interpreter's business
    and comes in as [int_of_str]. *)
Definition int (int_of_str : string -> option Z) (v : json) : result Z :=
  match v with
  | JInt n => Ok n
  | JBool b => Ok (if b then 1 else 0)
  | JFloat f => int_of_float f
  | JStr s =>
      match int_of_str s with
      | Some n => Ok n
      | None => Raise (ValueError "invalid literal for int()")
      end
  | _ => Raise TypeError
  end.

(** *** [datetime] and [timedelta]

    A naive [datetime] is the number of microseconds since
    0001-01-01T00:00:00; the type ends with year 9999.  A [timedelta] is a
    number of microseconds of at most 999999999 days in magnitude. *)
Definition datetime := Z.

Definition MICROSECOND : Z := 1000000.
Definition MAXORDINAL : Z := 3652059.
Definition DATETIME_MAX : datetime := MAXORDINAL * 86400 * MICROSECOND - 1.
Definition TIMEDELTA_MAX_DAYS : Z := 999999999.

Definition valid_datetime (t : datetime) : Prop := 0 <= t <= DATETIME_MAX.

(** [timedelta(seconds=n)] *)
Definition timedelta (seconds : Z) : result Z :=
  let days := seconds / 86400 in
  if (- TIMEDELTA_MAX_DAYS <=? days) && (days <=? TIMEDELTA_MAX_DAYS)
  then Ok (seconds * MICROSECOND)
  else Raise OverflowError.

(** [t + delta] *)
Definition datetime_add (t : datetime) (delta : Z) : result datetime :=
  let r := t + delta in
  if (0 <=? r) && (r <=? DATETIME_MAX) then Ok r else Raise OverflowError.

End Py.
Export Py.

(** ** The [requests] library, as far as the client uses it *)

Module Requests.

Inductive method : Type := GET | POST | PUT.

(** A header value is a plain string, or the f-string [f"Bearer {token}"]
    of a token value. *)
Inductive header_value : Type :=
| Plain (s : string)
| Bearer (token : json).

(** What goes out as the body: nothing, [data=] a form-encoded string,
    [data=json.dumps(payload)] (kept as the value that is dumped), or
    [files=] one multipart field [(file_name, file, mime_type)]. *)
Inductive body : Type :=
| NoBody
| Data (s : string)
| JsonData (payload : json)
| Files (field file_name : string) (file : list Byte.byte) (mime_type : string).

Record Request : Type := {
  verb : method;
  url : string;
  headers : list (string * header_value);
  payload : body;
  timeout : Z
}.

(** A response: its status, its raw body, and what [response.json()] makes
    of that body ([None] when it is not JSON). *)
Record Response : Type := {
  status_code : Z;
  content : list Byte.byte;
  parsed : option json
}.

(** [response.ok]: the status is not a client or server error. *)
Definition ok (r : Response) : bool :=
  negb ((400 <=? status_code r) && (status_code r <? 600)).

Definition raise_for_status (r : Response) : result unit :=
  if (400 <=? status_code r) && (status_code r <? 600)
  then Raise (HTTPError (status_code r))
  else Ok tt.

Definition json_of (r : Response) : result json :=
  match parsed r with
  | Some j => Ok j
  | None => Raise JSONDecodeError
  end.

End Requests.
Export Requests.

(** ** The domain objects of [nova_objects] *)

(** Modelled from the spec: the class [CaseParty] of the module
    [nova_objects], a plain value object with the fields of section 3 of the
    specification.  A field holds whatever value the response supplied. *)
Module CaseParty.
Record t : Type := {
  identification_type : json;
  identification : json;
  role : json;
  name : json
}.
End CaseParty.

(** Modelled from the spec: the class [NovaCase] of the module
    [nova_objects], a plain value object with the fields of section 3 of the
    specification and the parties it owns, in order. *)
Module NovaCase.
Record t : Type := {
  uuid : json;
  title : json;
  case_date : json;
  case_number : json;
  active_code : json;
  progress_state : json;
  case_parties : list CaseParty.t
}.
End NovaCase.

(** Modelled from the spec: the class [NovaDocument] of the module
    [nova_objects], a plain value object with the fields of section 3 of the
    specification (metadata only). *)
Module NovaDocument.
Record t : Type := {
  uuid : json;
  title : json;
  sensitivity : json;
  document_type : json;
  description : json;
  approved : json;
  document_date : json;
  file_extension : json
}.
End NovaDocument.

(** ** The world around the client *)

(** What the program cannot decide itself: the clock, the uuid generator, the
    remote servers, the file system and a few library functions whose results
    depend on the platform. *)
Record Env : Type := {
  now : nat -> datetime;              (* the k-th reading of [datetime.now()] *)
  uuid4 : nat -> string;              (* the k-th [str(uuid.uuid4())] *)
  respond : list Request -> Request -> option Response;
                                      (* the answer to a request, given the
                                         requests before it; [None] when no
                                         answer arrives *)
  int_of_str : string -> option Z;    (* [int(s)] of a string *)
  strftime : datetime -> string -> string;
  guess_type : string -> option string;   (* [mimetypes.guess_type(p)[0]] *)
  basename : string -> string;            (* [os.path.basename] *)
  open_rb : string -> option (list Byte.byte)   (* [open(p, 'rb')] *)
}.

(** How far the program has consumed the world: clock readings taken, uuids
    drawn, requests issued (oldest first). *)
Record World : Type := {
  ticks : nat;
  draws : nat;
  sent : list Request
}.

Definition tick (w : World) : World :=
  {| ticks := S (ticks w); draws := draws w; sent := sent w |}.

Definition draw (w : World) : World :=
  {| ticks := ticks w; draws := S (draws w); sent := sent w |}.

Definition log (r : Request) (w : World) : World :=
  {| ticks := ticks w; draws := draws w; sent := (sent w ++ [r])%list |}.

(** The requests issued between two worlds. *)
Definition issued (w w' : World) : list Request :=
  skipn (List.length (sent w)) (sent w').

(** ** The client *)

(** The attributes of a [NovaESDH] instance; an attribute that has not been
    assigned yet is [None]. *)
Record NovaESDH : Type := {
  client_id : option string;
  client_secret : option string;
  _bearer_token : option json;
  token_expiry_date : option datetime
}.

Definition blank : NovaESDH :=
  {| client_id := None; client_secret := None;
     _bearer_token := None; token_expiry_date := None |}.

(** Computations over [self] and the world that may raise. *)
Definition M (A : Type) : Type :=
  NovaESDH -> World -> result A * NovaESDH * World.

Definition M_ret {A} (a : A) : M A := fun self w => (Ok a, self, w).

Definition M_bind {A B} (m : M A) (k : A -> M B) : M B :=
  fun self w =>
    match m self w with
    | (Ok a, self', w') => k a self' w'
    | (Raise e, self', w') => (Raise e, self', w')
    end.

#[export] Instance Monad_M : Monad M :=
  {| ret := @M_ret; bind := @M_bind |}.

Definition outcome {A} (x : result A * NovaESDH * World) : result A := fst (fst x).
Definition self_after {A} (x : result A * NovaESDH * World) : NovaESDH := snd (fst x).
Definition world_after {A} (x : result A * NovaESDH * World) : World := snd x.

(** A pure step that may raise. *)
Definition lift {A} (r : result A) : M A := fun self w => (r, self, w).

(** Reading an attribute of [self]. *)
Definition attr {A} (field : NovaESDH -> option A) : M A :=
  fun self w =>
    match field self with
    | Some a => (Ok a, self, w)
    | None => (Raise AttributeError, self, w)
    end.

Definition set_client_id (v : string) : M unit :=
  fun self w =>
    (Ok tt, {| client_id := Some v; client_secret := client_secret self;
               _bearer_token := _bearer_token self;
               token_expiry_date := token_expiry_date self |}, w).

Definition set_client_secret (v : string) : M unit :=
  fun self w =>
    (Ok tt, {| client_id := client_id self; client_secret := Some v;
               _bearer_token := _bearer_token self;
               token_expiry_date := token_expiry_date self |}, w).

Definition with_token (self : NovaESDH) (token : json) (expiry : datetime) : NovaESDH :=
  {| client_id := client_id self; client_secret := client_secret self;
     _bearer_token := Some token; token_expiry_date := Some expiry |}.

(** [self._bearer_token, self.token_expiry_date = pair] *)
Definition set_token (pair : json * datetime) : M unit :=
  fun self w => (Ok tt, with_token self (fst pair) (snd pair), w).

Section Client.

Variable E : Env.

(** *** Effects *)

(** [datetime.now()] *)
Definition datetime_now : M datetime :=
  fun self w =>
    (Ok (now E (ticks w)), self, tick w).

(** [str(uuid.uuid4())] *)
Definition uuid_uuid4 : M string :=
  fun self w =>
    (Ok (uuid4 E (draws w)), self, draw w).

(** The request goes out; the answer comes back or the transport fails. *)
Definition send (r : Request) : M Response :=
  fun self w =>
    match respond E (sent w) r with
    | Some response => (Ok response, self, log r w)
    | None => (Raise ConnectionError, self, log r w)
    end.

Definition requests_get (url : string) (headers : list (string * header_value))
    (timeout : Z) : M Response :=
  send {| verb := GET; url := url; headers := headers; payload := NoBody; timeout := timeout |}.

Definition requests_post (url : string) (headers : list (string * header_value))
    (data : body) (timeout : Z) : M Response :=
  send {| verb := POST; url := url; headers := headers; payload := data; timeout := timeout |}.

Definition requests_put (url : string) (headers : list (string * header_value))
    (data : body) (timeout : Z) : M Response :=
  send {| verb := PUT; url := url; headers := headers; payload := data; timeout := timeout |}.

(** [open(path, 'rb')] and reading the file *)
Definition open_file (path : string) : M (list Byte.byte) :=
  lift (match open_rb E path with
        | Some bytes => Ok bytes
        | None => Raise OSError
        end).

(** *** Class constants *)

Definition DOMAIN : string := "https://cap-novaapi.kmd.dk".
Definition TIMEOUT : Z := 60.

(** *** Token handling *)

Definition token_url : string :=
  "https://novaauth.kmd.dk/realms/NovaIntegration/protocol/openid-connect/token".

Definition _get_new_token : M (json * datetime) :=
  let url := token_url in
  secret <- attr client_secret ;;
  id <- attr client_id ;;
  let payload := "client_secret=" ++ secret
                 ++ "&grant_type=client_credentials&client_id=" ++ id
                 ++ "&scope=client" in
  let headers := [("Content-Type", Plain "application/x-www-form-urlencoded")] in
  response <- requests_post url headers (Data payload) TIMEOUT ;;
  lift (raise_for_status response) ;;
  j <- lift (json_of response) ;;
  bearer_token <- lift (subscript j "access_token") ;;
  j' <- lift (json_of response) ;;
  token_life_seconds <- lift (subscript j' "expires_in") ;;
  t <- datetime_now ;;
  seconds <- lift (int (int_of_str E) token_life_seconds) ;;
  delta <- lift (timedelta seconds) ;;
  token_expiry_date <- lift (datetime_add t delta) ;;
  ret (bearer_token, token_expiry_date).

Definition __init__ (id secret : string) : M unit :=
  set_client_id id ;;
  set_client_secret secret ;;
  pair <- _get_new_token ;;
  set_token pair.

(** [NovaESDH(client_id, client_secret)]: a fresh object is initialised and
    handed out only when [__init__] returns. *)
Definition new (id secret : string) (w : World) : result NovaESDH * World :=
  match __init__ id secret blank w with
  | (Ok _, self, w') => (Ok self, w')
  | (Raise e, _, w') => (Raise e, w')
  end.

Definition get_bearer_token : M json :=
  expiry <- attr token_expiry_date ;;
  delta <- lift (timedelta 30) ;;
  limit <- lift (datetime_add expiry delta) ;;
  t <- datetime_now ;;
  (if limit <? t
   then pair <- _get_new_token ;; set_token pair
   else ret tt) ;;
  attr _bearer_token.

(** *** Address lookup *)

Definition get_address_by_cpr (cpr : string) : M json :=
  transaction_id <- uuid_uuid4 ;;
  let url := DOMAIN ++ "/api/Cpr/GetAddressByCpr"
             ++ "?TransactionId=" ++ transaction_id
             ++ "&Cpr=" ++ cpr
             ++ "&api-version=1.0-Cpr" in
  token <- get_bearer_token ;;
  let headers := [("Authorization", Bearer token)] in
  response <- requests_get url headers TIMEOUT ;;
  lift (raise_for_status response) ;;
  address <- lift (json_of response) ;;
  ret address.

(** *** Case search *)

(** The body of the case search: paging, the three filters, and the fields
    the answer is to carry. *)
Definition get_cases_payload (transaction_id : string)
    (cpr case_number case_title : option string) : json :=
  JDict [
    ("common", JDict [
      ("transactionId", JStr transaction_id)
    ]);
    ("paging", JDict [
      ("startRow", JInt 1);
      ("numberOfRows", JInt 100)
    ]);
    ("caseAttributes", JDict [
      ("userFriendlyCaseNumber", of_option case_number);
      ("title", of_option case_title)
    ]);
    ("caseParty", JDict [
      ("identificationType", JStr "CprNummer");
      ("identification", of_option cpr)
    ]);
    ("caseGetOutput", JDict [
      ("numberOfSecondaryParties", JBool true);
      ("caseParty", JDict [
        ("identificationType", JBool true);
        ("identification", JBool true);
        ("partyRole", JBool true);
        ("name", JBool true)
      ]);
      ("caseAttributes", JDict [
        ("title", JBool true);
        ("userFriendlyCaseNumber", JBool true);
        ("caseDate", JBool true)
      ]);
      ("state", JDict [
        ("activeCode", JBool true);
        ("progressState", JBool true)
      ])
    ])
  ].

(** [v[k1][k2]] *)
Definition subscript2 (v : json) (k1 k2 : string) : result json :=
  inner <- subscript v k1 ;;
  subscript inner k2.

(** One turn of the inner loop: a party dict becomes a [CaseParty]. *)
Definition party_of (party_dict : json) : result CaseParty.t :=
  identification_type <- subscript party_dict "identificationType" ;;
  identification <- subscript party_dict "identification" ;;
  role <- subscript party_dict "partyRole" ;;
  name <- dict_get party_dict "name" JNull ;;
  ret {| CaseParty.identification_type := identification_type;
         CaseParty.identification := identification;
         CaseParty.role := role;
         CaseParty.name := name |}.

(** One turn of the outer loop: a case dict becomes a [NovaCase]. *)
Definition case_of (case_dict : json) : result NovaCase.t :=
  case_parties <- subscript case_dict "caseParties" ;;
  party_dicts <- iterate case_parties ;;
  parties <- for_each party_of party_dicts ;;
  uuid <- subscript2 case_dict "common" "uuid" ;;
  title <- subscript2 case_dict "caseAttributes" "title" ;;
  case_date <- subscript2 case_dict "caseAttributes" "caseDate" ;;
  case_number <- subscript2 case_dict "caseAttributes" "userFriendlyCaseNumber" ;;
  active_code <- subscript2 case_dict "state" "activeCode" ;;
  progress_state <- subscript2 case_dict "state" "progressState" ;;
  ret {| NovaCase.uuid := uuid;
         NovaCase.title := title;
         NovaCase.case_date := case_date;
         NovaCase.case_number := case_number;
         NovaCase.active_code := active_code;
         NovaCase.progress_state := progress_state;
         NovaCase.case_parties := parties |}.

(** The conversion loop over [response.json()['cases']]. *)
Definition cases_of (j : json) : result (list NovaCase.t) :=
  cases <- subscript j "cases" ;;
  case_dicts <- iterate cases ;;
  for_each case_of case_dicts.

Definition get_cases_url : string := DOMAIN ++ "/api/Case/GetList?api-version=1.0-Case".

Definition get_cases (cpr case_number case_title : option string) : M (list NovaCase.t) :=
  if negb (any [truthy cpr; truthy case_number; truthy case_title])
  then lift (Raise (ValueError "No search terms given."))
  else
    let url := get_cases_url in
    transaction_id <- uuid_uuid4 ;;
    let payload := get_cases_payload transaction_id cpr case_number case_title in
    token <- get_bearer_token ;;
    let headers := [("Content-Type", Plain "application/json");
                    ("Authorization", Bearer token)] in
    response <- requests_put url headers (JsonData payload) TIMEOUT ;;
    lift (raise_for_status response) ;;
    j <- lift (json_of response) ;;
    lift (cases_of j).

(** *** Upload *)

Definition upload_url (transaction_id document_id : string) : string :=
  DOMAIN ++ "/api/Document/UploadFile/" ++ transaction_id ++ "/" ++ document_id
  ++ "?api-version=1.0-Case".

Definition upload_document (document_path : string) : M string :=
  transaction_id <- uuid_uuid4 ;;
  document_id <- uuid_uuid4 ;;
  let url := upload_url transaction_id document_id in
  token <- get_bearer_token ;;
  let headers := [("Authorization", Bearer token); ("accept", Plain "*/*")] in
  let file_name := basename E document_path in
  let mime_type := guess_type E document_path in
  let mime_type := match mime_type with
                   | None => "application/octet-stream"
                   | Some m => m
                   end in
  file <- open_file document_path ;;
  response <- requests_post url headers (Files "file" file_name file mime_type) TIMEOUT ;;
  lift (raise_for_status response) ;;
  ret document_id.

(** *** Document list *)

Definition get_documents_payload (transaction_id case_uuid : string) : json :=
  JDict [
    ("common", JDict [
      ("transactionId", JStr transaction_id)
    ]);
    ("paging", JDict [
      ("startRow", JInt 1);
      ("numberOfRows", JInt 100)
    ]);
    ("getOutput", JDict [
      ("title", JBool true);
      ("sensitivity", JBool true);
      ("documentType", JBool true);
      ("description", JBool true);
      ("approved", JBool true);
      ("documentDate", JBool true);
      ("fileExtension", JBool true);
      ("responsibleDepartment", JBool true);
      ("securityUnit", JBool true)
    ]);
    ("caseUuid", JStr case_uuid)
  ].

(** One turn of the loop: a document dict becomes a [NovaDocument]. *)
Definition document_of (document_dict : json) : result NovaDocument.t :=
  uuid <- subscript document_dict "documentUuid" ;;
  title <- subscript document_dict "title" ;;
  sensitivity <- subscript document_dict "sensitivity" ;;
  document_type <- subscript document_dict "documentType" ;;
  description <- dict_get document_dict "description" JNull ;;
  approved <- subscript document_dict "approved" ;;
  document_date <- subscript document_dict "documentDate" ;;
  file_extension <- subscript document_dict "fileExtension" ;;
  ret {| NovaDocument.uuid := uuid;
         NovaDocument.title := title;
         NovaDocument.sensitivity := sensitivity;
         NovaDocument.document_type := document_type;
         NovaDocument.description := description;
         NovaDocument.approved := approved;
         NovaDocument.document_date := document_date;
         NovaDocument.file_extension := file_extension |}.

(** The conversion loop over [response.json()['documents']]. *)
Definition documents_of (j : json) : result (list NovaDocument.t) :=
  documents <- subscript j "documents" ;;
  document_dicts <- iterate documents ;;
  for_each document_of document_dicts.

Definition get_documents_url : string :=
  DOMAIN ++ "/api/Document/GetList?api-version=1.0-Case".

Definition get_documents (case_uuid : string) : M (list NovaDocument.t) :=
  let url := get_documents_url in
  transaction_id <- uuid_uuid4 ;;
  let payload := get_documents_payload transaction_id case_uuid in
  token <- get_bearer_token ;;
  let headers := [("Content-Type", Plain "application/json");
                  ("Authorization", Bearer token)] in
  response <- requests_put url headers (JsonData payload) TIMEOUT ;;
  lift (raise_for_status response) ;;
  j <- lift (json_of response) ;;
  lift (documents_of j).

(** *** Download *)

Definition download_url : string := DOMAIN ++ "/api/Document/GetFile?api-version=1.0-Case".

(** An omitted [checkout] is [False], an omitted [checkout_comment] is
    [None]. *)
Definition download_document_file (document_uuid : string)
    (checkout : option bool) (checkout_comment : option string) : M (list Byte.byte) :=
  let checkout := match checkout with Some b => b | None => false end in
  let url := download_url in
  transaction_id <- uuid_uuid4 ;;
  let payload := JDict [
    ("common", JDict [
      ("transactionId", JStr transaction_id);
      ("uuid", JStr document_uuid)
    ]);
    ("checkOutDocument", JBool checkout);
    ("checkOutComment", of_option checkout_comment)
  ] in
  token <- get_bearer_token ;;
  let headers := [("Content-Type", Plain "application/json");
                  ("Authorization", Bearer token)] in
  response <- requests_put url headers (JsonData payload) TIMEOUT ;;
  lift (raise_for_status response) ;;
  ret (content response).

(** *** Attach *)

Definition attach_url : string := DOMAIN ++ "/api/Document/Import?api-version=1.0-Case".

Definition DEFAULT_SECURITY_UNIT_ID : Z := 818485.
Definition DEFAULT_SECURITY_UNIT_NAME : string := "Borgerservice".

Definition attach_payload (transaction_id case_uuid : string) (document : NovaDocument.t)
    (document_date : string) (security_unit_id : Z) (security_unit_name : string) : json :=
  JDict [
    ("common", JDict [
      ("transactionId", JStr transaction_id);
      ("uuid", NovaDocument.uuid document)
    ]);
    ("caseUuid", JStr case_uuid);
    ("title", NovaDocument.title document);
    ("sensitivity", NovaDocument.sensitivity document);
    ("documentDate", JStr document_date);
    ("documentType", NovaDocument.document_type document);
    ("description", NovaDocument.description document);
    ("securityUnit", JDict [
      ("losIdentity", JDict [
        ("administrativeUnitId", JInt security_unit_id);
        ("fullName", JStr security_unit_name)
      ])
    ]);
    ("approved", NovaDocument.approved document);
    ("accessToDocuments", JBool true)
  ].

(** An omitted [security_unit_id] is 818485, an omitted [security_unit_name]
    is "Borgerservice". *)
Definition attach_document_to_case (case_uuid : string) (document : NovaDocument.t)
    (security_unit_id : option Z) (security_unit_name : option string) : M unit :=
  let security_unit_id :=
    match security_unit_id with Some n => n | None => DEFAULT_SECURITY_UNIT_ID end in
  let security_unit_name :=
    match security_unit_name with Some s => s | None => DEFAULT_SECURITY_UNIT_NAME end in
  let url := attach_url in
  transaction_id <- uuid_uuid4 ;;
  t <- datetime_now ;;
  let payload := attach_payload transaction_id case_uuid document
                   (strftime E t "%Y-%m-%dT%H:%M:%SZ")
                   security_unit_id security_unit_name in
  token <- get_bearer_token ;;
  let headers := [("Content-Type", Plain "application/json");
                  ("Authorization", Bearer token)] in
  response <- requests_post url headers (JsonData payload) TIMEOUT ;;
  lift (raise_for_status response).

End Client.

(** ** Vocabulary of the properties *)

Definition THIRTY_SECONDS : Z := 30 * MICROSECOND.

(** The test of [get_bearer_token], read at clock value [t]. *)
Definition refresh_due (self : NovaESDH) (t : datetime) : bool :=
  match token_expiry_date self with
  | Some expiry =>
      match datetime_add expiry THIRTY_SECONDS with
      | Ok limit => limit <? t
      | Raise _ => false
      end
  | None => false
  end.

(** The request [_get_new_token] sends for a pair of credentials. *)
Definition token_request (id secret : string) : Request :=
  {| verb := POST;
     url := token_url;
     headers := [("Content-Type", Plain "application/x-www-form-urlencoded")];
     payload := Data ("client_secret=" ++ secret
                      ++ "&grant_type=client_credentials&client_id=" ++ id
                      ++ "&scope=client");
     timeout := TIMEOUT |}.

Definition json_headers (token : json) : list (string * header_value) :=
  [("Content-Type", Plain "application/json"); ("Authorization", Bearer token)].

(** The requests of the data operations, for a token and the uuids drawn. *)
Definition address_request (token : json) (transaction_id cpr : string) : Request :=
  {| verb := GET;
     url := DOMAIN ++ "/api/Cpr/GetAddressByCpr"
            ++ "?TransactionId=" ++ transaction_id
            ++ "&Cpr=" ++ cpr
            ++ "&api-version=1.0-Cpr";
     headers := [("Authorization", Bearer token)];
     payload := NoBody;
     timeout := TIMEOUT |}.

Definition cases_request (token : json) (transaction_id : string)
    (cpr case_number case_title : option string) : Request :=
  {| verb := PUT;
     url := get_cases_url;
     headers := json_headers token;
     payload := JsonData (get_cases_payload transaction_id cpr case_number case_title);
     timeout := TIMEOUT |}.

Definition documents_request (token : json) (transaction_id case_uuid : string) : Request :=
  {| verb := PUT;
     url := get_documents_url;
     headers := json_headers token;
     payload := JsonData (get_documents_payload transaction_id case_uuid);
     timeout := TIMEOUT |}.

Definition download_request (token : json) (transaction_id document_uuid : string)
    (checkout : bool) (checkout_comment : option string) : Request :=
  {| verb := PUT;
     url := download_url;
     headers := json_headers token;
     payload := JsonData (JDict [
       ("common", JDict [
         ("transactionId", JStr transaction_id);
         ("uuid", JStr document_uuid)
       ]);
       ("checkOutDocument", JBool checkout);
       ("checkOutComment", of_option checkout_comment)
     ]);
     timeout := TIMEOUT |}.

Definition mime_type_of (E : Env) (document_path : string) : string :=
  match guess_type E document_path with
  | None => "application/octet-stream"
  | Some m => m
  end.

Definition upload_request (E : Env) (token : json) (transaction_id document_id : string)
    (document_path : string) (file : list Byte.byte) : Request :=
  {| verb := POST;
     url := upload_url transaction_id document_id;
     headers := [("Authorization", Bearer token); ("accept", Plain "*/*")];
     payload := Files "file" (basename E document_path) file (mime_type_of E document_path);
     timeout := TIMEOUT |}.

Definition attach_request (token : json) (body : json) : Request :=
  {| verb := POST;
     url := attach_url;
     headers := json_headers token;
     payload := JsonData body;
     timeout := TIMEOUT |}.

(** The security unit an attach call names: the argument, or the default
    when it is omitted. *)
Definition security_unit_id_of (security_unit_id : option Z) : Z :=
  match security_unit_id with Some n => n | None => DEFAULT_SECURITY_UNIT_ID end.

Definition security_unit_name_of (security_unit_name : option string) : string :=
  match security_unit_name with Some s => s | None => DEFAULT_SECURITY_UNIT_NAME end.

(** The shape the six operations share once their uuids are drawn: fetch the
    token, prepare, send one request, digest the answer. *)
Definition guarded_call (E : Env) {A B} (prepare : result B)
    (request : json -> B -> Request) (digest : Response -> result A) : M A :=
  token <- get_bearer_token E ;;
  b <- lift prepare ;;
  response <- send E (request token b) ;;
  lift (digest response).

(** Selecting requests by their address. *)
Definition to (address : string) (r : Request) : bool := String.eqb (url r) address.




(** Presence of a key in a dict (no other value has keys). *)
Definition has_key (v : json) (k : string) : bool :=
  match v with
  | JDict kvs =>
      match dict_lookup kvs k with
      | Some _ => true
      | None => false
      end
  | _ => false
  end.

Definition has_key2 (v : json) (k1 k2 : string) : bool :=
  match subscript v k1 with
  | Ok inner => has_key inner k2
  | Raise _ => false
  end.

Definition is_dict (v : json) : bool :=
  match v with
  | JDict _ => true
  | _ => false
  end.

(** The documented shape of a party and of a case in the answer to a case
    search (section 6 of the specification); [name] is optional. *)
Definition party_shape (party_dict : json) : bool :=
  has_key party_dict "identificationType"
  && has_key party_dict "identification"
  && has_key party_dict "partyRole".

Definition case_shape (case_dict : json) : bool :=
  match subscript case_dict "caseParties" with
  | Ok (JList party_dicts) => forallb party_shape party_dicts
  | _ => false
  end
  && has_key2 case_dict "common" "uuid"
  && has_key2 case_dict "caseAttributes" "title"
  && has_key2 case_dict "caseAttributes" "caseDate"
  && has_key2 case_dict "caseAttributes" "userFriendlyCaseNumber"
  && has_key2 case_dict "state" "activeCode"
  && has_key2 case_dict "state" "progressState".

(** A party of the answer and the [CaseParty] made from it. *)
Definition maps_to_party (party_dict : json) (party : CaseParty.t) : Prop :=
  subscript party_dict "identificationType" = Ok (CaseParty.identification_type party)
  /\ subscript party_dict "identification" = Ok (CaseParty.identification party)
  /\ subscript party_dict "partyRole" = Ok (CaseParty.role party)
  /\ dict_get party_dict "name" JNull = Ok (CaseParty.name party)
  /\ (has_key party_dict "name" = false -> CaseParty.name party = JNull).

(** A case of the answer and the [NovaCase] made from it: the parties
    correspond one to one, in order. *)
Definition maps_to_case (case_dict : json) (case : NovaCase.t) : Prop :=
  exists party_dicts,
    subscript case_dict "caseParties" = Ok (JList party_dicts)
    /\ Forall2 maps_to_party party_dicts (NovaCase.case_parties case)
    /\ List.length (NovaCase.case_parties case) = List.length party_dicts.

(** The required fields of a document in the answer to a document list. *)
Definition required_document_fields : list string :=
  ["documentUuid"; "title"; "sensitivity"; "documentType"; "approved";
   "documentDate"; "fileExtension"].

Definition complete_document (document_dict : json) : bool :=
  forallb (has_key document_dict) required_document_fields.

Definition maps_to_document (document_dict : json) (document : NovaDocument.t) : Prop :=
  subscript document_dict "documentUuid" = Ok (NovaDocument.uuid document)
  /\ dict_get document_dict "description" JNull = Ok (NovaDocument.description document)
  /\ (has_key document_dict "description" = false ->
      NovaDocument.description document = JNull).

(** The one request of a guarded call itself, sent when the token is
    obtained and the preparation succeeds. *)
Definition own_request (E : Env) {B} (prepare : result B)
    (request : json -> B -> Request) (self : NovaESDH) (w : World) : list Request :=
  match outcome (get_bearer_token E self w), prepare with
  | Ok token, Ok b => [request token b]
  | _, _ => []
  end.

(** The exception of a required document field that is not there. *)
Definition missing_field (e : exn) : Prop :=
  exists k, In k required_document_fields /\ e = KeyError k.

(** The requests one call of [attach_document_to_case] sends to the attach
    address. *)
Definition attach_requests (E : Env) (case_uuid : string) (document : NovaDocument.t)
    (unit_id : option Z) (unit_name : option string)
    (self : NovaESDH) (w : World) : list Request :=
  filter (to attach_url)
    (issued w (world_after
                 (attach_document_to_case E case_uuid document unit_id unit_name self w))).

(** What the attach claim asks of a call: one request to the attach
    address, whose body names the uuid of the document, the clock reading of
    the call as the document date, and the security unit of the call. *)
Definition one_attach_request (E : Env) (case_uuid : string) (document : NovaDocument.t)
    (unit_id : option Z) (unit_name : option string)
    (self : NovaESDH) (w : World) : Prop :=
  exists r body,
    attach_requests E case_uuid document unit_id unit_name self w = [r]
    /\ payload r = JsonData body
    /\ subscript2 body "common" "uuid" = Ok (NovaDocument.uuid document)
    /\ subscript body "documentDate"
       = Ok (JStr (strftime E (now E (ticks w)) "%Y-%m-%dT%H:%M:%SZ"))
    /\ subscript2 body "securityUnit" "losIdentity"
       = Ok (JDict [("administrativeUnitId", JInt (security_unit_id_of unit_id));
                    ("fullName", JStr (security_unit_name_of unit_name))]).

(** The requests one call of [upload_document] sends to its upload
    address. *)
Definition upload_requests (E : Env) (document_path : string)
    (self : NovaESDH) (w : World) : list Request :=
  filter (to (upload_url (uuid4 E (draws w)) (uuid4 E (S (draws w)))))
    (issued w (world_after (upload_document E document_path self w))).

(** What the upload claim asks of a call: the file goes out, in one
    multipart request to the address with the two uuids of the call; the
    bytes are those of the file at [document_path] and the token is the one
    [get_bearer_token] returned to this call. *)
Definition file_is_sent (E : Env) (document_path : string)
    (self : NovaESDH) (w : World) : Prop :=
  exists token file,
    outcome (get_bearer_token E self (draw (draw w))) = Ok token
    /\ open_rb E document_path = Some file
    /\ upload_requests E document_path self w
       = [upload_request E token (uuid4 E (draws w)) (uuid4 E (S (draws w)))
            document_path file].

(** What the construction claim asks of the constructor, for the answer
    [response] of the token endpoint granting [n] seconds. *)
Definition constructs_with_expiry (E : Env) (id secret : string) (w : World)
    (token : json) (n : Z) : Prop :=
  exists w',
    new E id secret w
    = (Ok {| client_id := Some id; client_secret := Some secret;
             _bearer_token := Some token;
             token_expiry_date := Some (now E (ticks w) + n * MICROSECOND) |}, w')
    /\ now E (ticks w) < now E (ticks w) + n * MICROSECOND.

Definition eager_token_exchange (E : Env) (id secret : string) (w : World) : Prop :=
  forall response j token n,
    respond E (sent w) (token_request id secret) = Some response ->
    ok response = true ->
    parsed response = Some j ->
    subscript j "access_token" = Ok token ->
    subscript j "expires_in" = Ok (JInt n) ->
    0 < n ->
    constructs_with_expiry E id secret w token n.

(** An operation keeps the credentials, and touches the token only through
    a due refresh, tested at the clock reading number [check w]. *)
Definition keeps_client (E : Env) {A} (check : World -> nat) (m : M A) : Prop :=
  forall self w,
    client_id (self_after (m self w)) = client_id self
    /\ client_secret (self_after (m self w)) = client_secret self
    /\ (self_after (m self w) = self
        \/ (refresh_due self (now E (check w)) = true
            /\ exists token expiry,
                 self_after (m self w) = with_token self token expiry))
    /\ (refresh_due self (now E (check w)) = false -> self_after (m self w) = self).

(** ** The six public operations as one family *)

(** A call of a public operation with its arguments. *)
Inductive call : Type :=
| Address (cpr : string)
| Cases (cpr case_number case_title : option string)
| Upload (document_path : string)
| Documents (case_uuid : string)
| Download (document_uuid : string) (checkout : option bool)
    (checkout_comment : option string)
| Attach (case_uuid : string) (document : NovaDocument.t)
    (security_unit_id : option Z) (security_unit_name : option string).

(** What the call returns. *)
Definition returns (c : call) : Type :=
  match c with
  | Address _ => json
  | Cases _ _ _ => list NovaCase.t
  | Upload _ => string
  | Documents _ => list NovaDocument.t
  | Download _ _ _ => list Byte.byte
  | Attach _ _ _ _ => unit
  end.

Definition perform (E : Env) (c : call) : M (returns c) :=
  match c with
  | Address cpr => get_address_by_cpr E cpr
  | Cases cpr case_number case_title => get_cases E cpr case_number case_title
  | Upload document_path => upload_document E document_path
  | Documents case_uuid => get_documents E case_uuid
  | Download document_uuid checkout checkout_comment =>
      download_document_file E document_uuid checkout checkout_comment
  | Attach case_uuid document security_unit_id security_unit_name =>
      attach_document_to_case E case_uuid document security_unit_id security_unit_name
  end.

(** A case search is accepted when one of its terms is truthy; the other
    operations take every call. *)
Definition accepted (c : call) : bool :=
  match c with
  | Cases cpr case_number case_title =>
      any [truthy cpr; truthy case_number; truthy case_title]
  | _ => true
  end.

(** The number of uuids an accepted call draws. *)
Definition uuids (c : call) : nat :=
  match c with
  | Upload _ => 2
  | _ => 1
  end.

(** The world in which the call asks for the bearer token: its uuids are
    drawn, and an attach call has read the clock for its document date. *)
Definition entry (c : call) (w : World) : World :=
  match c with
  | Upload _ => draw (draw w)
  | Attach _ _ _ _ => tick (draw w)
  | _ => draw w
  end.

(** What the call has to get hold of between the token and its request: an
    upload opens its file. *)
Definition prepared (E : Env) (c : call) : result (list Byte.byte) :=
  match c with
  | Upload document_path =>
      match open_rb E document_path with
      | Some bytes => Ok bytes
      | None => Raise OSError
      end
  | _ => Ok []
  end.

(** The request of the call itself, for the token it was given (and the file
    it opened). *)
Definition request_of (E : Env) (c : call) (w : World) (token : json)
    (file : list Byte.byte) : Request :=
  match c with
  | Address cpr => address_request token (uuid4 E (draws w)) cpr
  | Cases cpr case_number case_title =>
      cases_request token (uuid4 E (draws w)) cpr case_number case_title
  | Upload document_path =>
      upload_request E token (uuid4 E (draws w)) (uuid4 E (S (draws w)))
        document_path file
  | Documents case_uuid => documents_request token (uuid4 E (draws w)) case_uuid
  | Download document_uuid checkout checkout_comment =>
      download_request token (uuid4 E (draws w)) document_uuid
        (match checkout with Some b => b | None => false end) checkout_comment
  | Attach case_uuid document security_unit_id security_unit_name =>
      attach_request token
        (attach_payload (uuid4 E (draws w)) case_uuid document
           (strftime E (now E (ticks w)) "%Y-%m-%dT%H:%M:%SZ")
           (security_unit_id_of security_unit_id)
           (security_unit_name_of security_unit_name))
  end.

(** What the call makes of the answer to its request. *)
Definition digest_of (E : Env) (c : call) (w : World) : Response -> result (returns c) :=
  match c return Response -> result (returns c) with
  | Address _ => fun response => raise_for_status response ;; json_of response
  | Cases _ _ _ =>
      fun response => raise_for_status response ;; j <- json_of response ;; cases_of j
  | Upload _ =>
      fun response => raise_for_status response ;; ret (uuid4 E (S (draws w)))
  | Documents _ =>
      fun response => raise_for_status response ;; j <- json_of response ;; documents_of j
  | Download _ _ _ =>
      fun response => raise_for_status response ;; ret (content response)
  | Attach _ _ _ _ => raise_for_status
  end.

(** The requests of one exchange of the call [c] made in world [w]: at most
    one request for a token, with the credentials of the client, and after it
    at most one request, which is then the request of the operation itself,
    to its address, with the token [get_bearer_token] returned and the file
    the call opened. *)
Definition one_exchange (E : Env) (c : call) (self : NovaESDH) (w : World)
    (rs : list Request) : Prop :=
  exists tokens own,
    rs = (tokens ++ own)%list
    /\ (tokens = []
        \/ exists id secret,
             client_id self = Some id /\ client_secret self = Some secret
             /\ tokens = [token_request id secret])
    /\ (own = []
        \/ exists token file,
             outcome (get_bearer_token E self (entry c w)) = Ok token
             /\ prepared E c = Ok file
             /\ own = [request_of E c w token file]).

(** The address each operation sends its request to (an upload: the address
    with the two uuids of the call). *)
Definition address_of (E : Env) (c : call) (w : World) : string :=
  match c with
  | Address cpr =>
      "https://cap-novaapi.kmd.dk/api/Cpr/GetAddressByCpr?TransactionId="
      ++ uuid4 E (draws w) ++ "&Cpr=" ++ cpr ++ "&api-version=1.0-Cpr"
  | Cases _ _ _ => get_cases_url
  | Upload _ => upload_url (uuid4 E (draws w)) (uuid4 E (S (draws w)))
  | Documents _ => get_documents_url
  | Download _ _ _ => download_url
  | Attach _ _ _ _ => attach_url
  end.

(** A client as the constructor hands it out: every attribute assigned, the
    expiry a [datetime]. *)
Definition constructed (self : NovaESDH) : Prop :=
  (exists id, client_id self = Some id)
  /\ (exists secret, client_secret self = Some secret)
  /\ (exists token, _bearer_token self = Some token)
  /\ (exists expiry, token_expiry_date self = Some expiry /\ valid_datetime expiry).

(** The first required field a document dict lacks, in the order in which
    the conversion reads them. *)
Definition first_missing (document_dict : json) : option string :=
  find (fun k => negb (has_key document_dict k)) required_document_fields.

(** A document of the answer and the [NovaDocument] made from it, field by
    field. *)
Definition copies_document (document_dict : json) (document : NovaDocument.t) : Prop :=
  subscript document_dict "documentUuid" = Ok (NovaDocument.uuid document)
  /\ subscript document_dict "title" = Ok (NovaDocument.title document)
  /\ subscript document_dict "sensitivity" = Ok (NovaDocument.sensitivity document)
  /\ subscript document_dict "documentType" = Ok (NovaDocument.document_type document)
  /\ dict_get document_dict "description" JNull = Ok (NovaDocument.description document)
  /\ subscript document_dict "approved" = Ok (NovaDocument.approved document)
  /\ subscript document_dict "documentDate" = Ok (NovaDocument.document_date document)
  /\ subscript document_dict "fileExtension" = Ok (NovaDocument.file_extension document).

(** A case of the answer and the [NovaCase] made from it, field by field. *)
Definition copies_case (case_dict : json) (case : NovaCase.t) : Prop :=
  subscript2 case_dict "common" "uuid" = Ok (NovaCase.uuid case)
  /\ subscript2 case_dict "caseAttributes" "title" = Ok (NovaCase.title case)
  /\ subscript2 case_dict "caseAttributes" "caseDate" = Ok (NovaCase.case_date case)
  /\ subscript2 case_dict "caseAttributes" "userFriendlyCaseNumber"
     = Ok (NovaCase.case_number case)
  /\ subscript2 case_dict "state" "activeCode" = Ok (NovaCase.active_code case)
  /\ subscript2 case_dict "state" "progressState" = Ok (NovaCase.progress_state case)
  /\ exists case_parties party_dicts,
       subscript case_dict "caseParties" = Ok case_parties
       /\ iterate case_parties = Ok party_dicts
       /\ Forall2 maps_to_party party_dicts (NovaCase.case_parties case).

(** Two documents that differ at most in their date and file extension. *)
Definition same_metadata (d d' : NovaDocument.t) : Prop :=
  NovaDocument.uuid d = NovaDocument.uuid d'
  /\ NovaDocument.title d = NovaDocument.title d'
  /\ NovaDocument.sensitivity d = NovaDocument.sensitivity d'
  /\ NovaDocument.document_type d = NovaDocument.document_type d'
  /\ NovaDocument.description d = NovaDocument.description d'
  /\ NovaDocument.approved d = NovaDocument.approved d'.

(** ** A sample world *)

Module Sample.

Definition T0 : datetime := 63900000000 * MICROSECOND.

Definition token_body (lifetime : Z) : json :=
  JDict [("access_token", JStr "tok-new"); ("expires_in", JInt lifetime)].

Definition cases_body : json :=
  JDict [("cases", JList [
    JDict [
      ("common", JDict [("uuid", JStr "c-1")]);
      ("caseAttributes", JDict [("title", JStr "Flytning");
                                ("userFriendlyCaseNumber", JStr "S2023-61078");
                                ("caseDate", JStr "2023-05-01T00:00:00")]);
      ("state", JDict [("activeCode", JStr "Active"); ("progressState", JStr "Opstaaet")]);
      ("caseParties", JList [
        JDict [("identificationType", JStr "CprNummer");
               ("identification", JStr "0101011111");
               ("partyRole", JStr "PRI");
               ("name", JStr "Anna")];
        JDict [("identificationType", JStr "CprNummer");
               ("identification", JStr "0202022222");
               ("partyRole", JStr "SEC")]
      ])
    ]
  ])].

Definition documents_body : json :=
  JDict [("documents", JList [
    JDict [("documentUuid", JStr "d-1"); ("title", JStr "Brev");
           ("sensitivity", JStr "Fortrolige"); ("documentType", JStr "Indgaaende");
           ("approved", JBool true); ("documentDate", JStr "2023-05-02T00:00:00");
           ("fileExtension", JStr "pdf")]
  ])].

Definition broken_documents_body : json :=
  JDict [("documents", JList [
    JDict [("title", JStr "Brev");
           ("sensitivity", JStr "Fortrolige"); ("documentType", JStr "Indgaaende");
           ("approved", JBool true); ("documentDate", JStr "2023-05-02T00:00:00");
           ("fileExtension", JStr "pdf")]
  ])].

Definition reply (status : Z) (j : json) : option Response :=
  Some {| status_code := status; content := []; parsed := Some j |}.

(** A server that answers every request; the token endpoint grants
    [lifetime] seconds and answers with [auth_status]. *)
Definition server (auth_status lifetime : Z) (documents : json)
    (before : list Request) (r : Request) : option Response :=
  if String.eqb (url r) token_url then reply auth_status (token_body lifetime)
  else if String.eqb (url r) get_cases_url then reply 200 cases_body
  else if String.eqb (url r) get_documents_url then reply 200 documents
  else reply 200 JNull.

Definition env (auth_status lifetime : Z) (documents : json) : Env :=
  {| now := fun k => T0 + Z.of_nat k * MICROSECOND;
     uuid4 := fun k => "uuid-" ++ String (ascii_of_nat (48 + k)) "";
     respond := server auth_status lifetime documents;
     int_of_str := fun _ => None;
     strftime := fun t fmt => (if t =? T0 then "first reading " else "later reading ") ++ fmt;
     guess_type := fun p => if String.eqb p "brev.pdf" then Some "application/pdf" else None;
     basename := fun p => p;
     open_rb := fun p => if String.eqb p "missing.bin" then None else Some [] |}.

Definition good : Env := env 200 3600 documents_body.

Definition start : World := {| ticks := 0; draws := 0; sent := [] |}.

Definition letter : NovaDocument.t :=
  {| NovaDocument.uuid := JStr "uuid-1";
     NovaDocument.title := JStr "Brev";
     NovaDocument.sensitivity := JStr "Fortrolige";
     NovaDocument.document_type := JStr "Indgaaende";
     NovaDocument.description := JNull;
     NovaDocument.approved := JBool true;
     NovaDocument.document_date := JStr "2001-01-01T00:00:00Z";
     NovaDocument.file_extension := JStr "pdf" |}.

(** A client whose token expires [margin] microseconds after [T0]. *)
Definition client (margin : Z) : NovaESDH :=
  {| client_id := Some "id"; client_secret := Some "secret";
     _bearer_token := Some (JStr "tok-old");
     token_expiry_date := Some (T0 + margin) |}.

End Sample.

(** ** More sample worlds *)

Module Scenario.

(** The sample world with a data endpoint that gives the same answer, or
    none, to every request, and a token endpoint that gives [token_answer]. *)
Definition env (token_answer data_answer : option Response) : Env :=
  {| now := now Sample.good;
     uuid4 := uuid4 Sample.good;
     respond := fun before r =>
                  if String.eqb (url r) token_url then token_answer else data_answer;
     int_of_str := int_of_str Sample.good;
     strftime := strftime Sample.good;
     guess_type := guess_type Sample.good;
     basename := basename Sample.good;
     open_rb := open_rb Sample.good |}.

Definition answer (status : Z) (bytes : list Byte.byte) (j : option json) : option Response :=
  Some {| status_code := status; content := bytes; parsed := j |}.

Definition grant (lifetime : Z) : option Response :=
  answer 200 [] (Some (Sample.token_body lifetime)).


(** The data endpoint does not answer. *)
Definition silent : Env := env (grant 3600) None.

(** The data endpoint serves a file of three bytes that is not JSON. *)
Definition file_server : Env :=
  env (grant 3600) (answer 200 [Byte.x25; Byte.x50; Byte.x44] None).

(** The data endpoint serves an address. *)
Definition address : json :=
  JDict [("street", JStr "Raadhuspladsen"); ("number", JInt 2)].

Definition address_server : Env := env (grant 3600) (answer 200 [] (Some address)).

(** The letter with another date and extension. *)
Definition redated_letter : NovaDocument.t :=
  {| NovaDocument.uuid := NovaDocument.uuid Sample.letter;
     NovaDocument.title := NovaDocument.title Sample.letter;
     NovaDocument.sensitivity := NovaDocument.sensitivity Sample.letter;
     NovaDocument.document_type := NovaDocument.document_type Sample.letter;
     NovaDocument.description := NovaDocument.description Sample.letter;
     NovaDocument.approved := NovaDocument.approved Sample.letter;
     NovaDocument.document_date := JStr "1999-12-31T23:59:59Z";
     NovaDocument.file_extension := JStr "docx" |}.

(** A document list whose second document lacks [sensitivity] and
    [approved]. *)
Definition second_document_incomplete : json :=
  JDict [("documents", JList [
    JDict [("documentUuid", JStr "d-1"); ("title", JStr "Brev");
           ("sensitivity", JStr "Fortrolige"); ("documentType", JStr "Indgaaende");
           ("description", JStr "svar"); ("approved", JBool true);
           ("documentDate", JStr "2023-05-02T00:00:00"); ("fileExtension", JStr "pdf")];
    JDict [("documentUuid", JStr "d-2"); ("title", JStr "Bilag");
           ("documentType", JStr "Indgaaende");
           ("documentDate", JStr "2023-05-03T00:00:00"); ("fileExtension", JStr "pdf")]
  ])].

End Scenario.

(** ** Properties *)

(** One step of symbolic execution: the monad and the primitive effects
    unfold, the methods stay folded. *)
Ltac mstep :=
  cbn [bind ret Monad_M Monad_result] in *;
  unfold M_bind, M_ret, result_bind, lift, attr, datetime_now, uuid_uuid4,
         set_token, set_client_id, set_client_secret, open_file,
         outcome, self_after, world_after in *;
  cbn [fst snd ticks draws sent tick draw] in *.

(** *** Worlds and the request log *)

Lemma skipn_length_app {A} (l rs : list A) : skipn (List.length l) (l ++ rs)%list = rs.
Proof. induction l as [| a l IH]; simpl; auto. Qed.

Lemma issued_app w w' rs : sent w' = (sent w ++ rs)%list -> issued w w' = rs.
Proof. intros H. unfold issued. rewrite H. apply skipn_length_app. Qed.

Lemma issued_refl w : issued w w = [].
Proof. apply issued_app. now rewrite app_nil_r. Qed.

(** *** The token *)

Section TokenFacts.

Variable E : Env.

Lemma timedelta_30 : timedelta 30 = Ok THIRTY_SECONDS.
Proof. reflexivity. Qed.

(** Without a due refresh the method reads the clock once and hands out what
    is stored. *)
Lemma get_bearer_token_cached self w :
  refresh_due self (now E (ticks w)) = false ->
  get_bearer_token E self w =
    match token_expiry_date self with
    | None => (Raise AttributeError, self, w)
    | Some expiry =>
        match datetime_add expiry THIRTY_SECONDS with
        | Raise e => (Raise e, self, w)
        | Ok _ =>
            match _bearer_token self with
            | Some token => (Ok token, self, tick w)
            | None => (Raise AttributeError, self, tick w)
            end
        end
    end.
Proof.
  unfold refresh_due, get_bearer_token. mstep.
  destruct (token_expiry_date self) as [expiry |]; [| reflexivity].
  rewrite timedelta_30. mstep.
  destruct (datetime_add expiry THIRTY_SECONDS) as [limit | e]; [| reflexivity].
  intros ->. mstep. now destruct (_bearer_token self).
Qed.

Lemma raise_for_status_ok response :
  ok response = true -> raise_for_status response = Ok tt.
Proof.
  unfold ok, raise_for_status.
  now destruct ((400 <=? status_code response) && (status_code response <? 600)).
Qed.

Lemma raise_for_status_error response :
  ok response = false ->
  raise_for_status response = Raise (HTTPError (status_code response)).
Proof.
  unfold ok, raise_for_status.
  now destruct ((400 <=? status_code response) && (status_code response <? 600)).
Qed.

(** [_get_new_token] never assigns to [self], draws no uuid, and sends at
    most the one token request. *)
Lemma get_new_token_frame self w :
  self_after (_get_new_token E self w) = self
  /\ draws (world_after (_get_new_token E self w)) = draws w
  /\ (world_after (_get_new_token E self w) = w
      \/ exists id secret,
           client_id self = Some id /\ client_secret self = Some secret
           /\ sent (world_after (_get_new_token E self w))
              = (sent w ++ [token_request id secret])%list).
Proof.
  unfold _get_new_token, requests_post, send. mstep.
  destruct (client_secret self) as [secret |]; [| now auto].
  destruct (client_id self) as [id |]; [| now auto].
  fold (token_request id secret).
  assert (Hlog : exists id0 secret0,
             Some id = Some id0 /\ Some secret = Some secret0
             /\ sent (log (token_request id secret) w)
                = (sent w ++ [token_request id0 secret0])%list)
    by (now exists id, secret).
  destruct (respond E (sent w) (token_request id secret)) as [response |];
    [| now auto].
  destruct (raise_for_status response); [| now auto].
  destruct (json_of response) as [j |]; [| now auto].
  destruct (subscript j "access_token"); [| now auto].
  destruct (subscript j "expires_in") as [v |]; [| now auto].
  destruct (int (int_of_str E) v) as [n |]; [| now auto].
  destruct (timedelta n) as [d |]; [| now auto].
  destruct (datetime_add (now E (ticks (log (token_request id secret) w))) d);
    now auto.
Qed.

(** The successful exchange. *)
Lemma get_new_token_ok self w id secret response j token v n d expiry :
  client_id self = Some id ->
  client_secret self = Some secret ->
  respond E (sent w) (token_request id secret) = Some response ->
  ok response = true ->
  parsed response = Some j ->
  subscript j "access_token" = Ok token ->
  subscript j "expires_in" = Ok v ->
  int (int_of_str E) v = Ok n ->
  timedelta n = Ok d ->
  datetime_add (now E (ticks w)) d = Ok expiry ->
  _get_new_token E self w
  = (Ok (token, expiry), self, tick (log (token_request id secret) w)).
Proof.
  intros Hid Hsecret Hresp Hok Hparsed Htoken Hlife Hint Hdelta Hadd.
  unfold _get_new_token, requests_post, send. mstep.
  rewrite Hsecret, Hid. fold (token_request id secret). rewrite Hresp.
  rewrite (raise_for_status_ok _ Hok).
  unfold json_of. rewrite Hparsed, Htoken, Hlife, Hint, Hdelta.
  cbn [ticks log]. now rewrite Hadd.
Qed.

(** A client- or server-error status ends the exchange. *)
Lemma get_new_token_http_error self w id secret response :
  client_id self = Some id ->
  client_secret self = Some secret ->
  respond E (sent w) (token_request id secret) = Some response ->
  ok response = false ->
  _get_new_token E self w
  = (Raise (HTTPError (status_code response)), self, log (token_request id secret) w).
Proof.
  intros Hid Hsecret Hresp Hok.
  unfold _get_new_token, requests_post, send. mstep.
  rewrite Hsecret, Hid. fold (token_request id secret). rewrite Hresp.
  now rewrite (raise_for_status_error _ Hok).
Qed.

(** With a due refresh the method is [_get_new_token] followed by the
    assignment of its pair. *)
Lemma get_bearer_token_refresh self w :
  refresh_due self (now E (ticks w)) = true ->
  get_bearer_token E self w =
    match _get_new_token E self (tick w) with
    | (Ok p, self', w') => (Ok (fst p), with_token self' (fst p) (snd p), w')
    | (Raise e, self', w') => (Raise e, self', w')
    end.
Proof.
  unfold refresh_due, get_bearer_token. mstep.
  destruct (token_expiry_date self) as [expiry |]; [| discriminate].
  rewrite timedelta_30.
  destruct (datetime_add expiry THIRTY_SECONDS) as [limit | e]; [| discriminate].
  intros ->. mstep.
  destruct (_get_new_token E self (tick w)) as [[[p | e] self'] w']; reflexivity.
Qed.

(** What one call of [get_bearer_token] can do to the client and the
    world. *)
Lemma get_bearer_token_frame self w :
  draws (world_after (get_bearer_token E self w)) = draws w
  /\ (exists rs,
        sent (world_after (get_bearer_token E self w)) = (sent w ++ rs)%list
        /\ Forall (fun r => url r = token_url) rs)
  /\ (self_after (get_bearer_token E self w) = self
      \/ (refresh_due self (now E (ticks w)) = true
          /\ exists token expiry,
               self_after (get_bearer_token E self w) = with_token self token expiry
               /\ outcome (get_bearer_token E self w) = Ok token)).
Proof.
  destruct (refresh_due self (now E (ticks w))) eqn:Hdue.
  - rewrite (get_bearer_token_refresh _ _ Hdue).
    destruct (get_new_token_frame self (tick w)) as (Hself & Hdraws & Hsent).
    destruct (_get_new_token E self (tick w)) as [[[p | e] self'] w'];
      mstep; subst self'.
    + split; [exact Hdraws |]. split.
      * destruct Hsent as [-> | (id & secret & _ & _ & ->)].
        -- exists []. now rewrite app_nil_r.
        -- exists [token_request id secret]. split; [reflexivity |].
           now constructor.
      * right. split; [reflexivity |]. now exists (fst p), (snd p).
    + split; [exact Hdraws |]. split; [| now left].
      destruct Hsent as [-> | (id & secret & _ & _ & ->)].
      * exists []. now rewrite app_nil_r.
      * exists [token_request id secret]. split; [reflexivity |]. now constructor.
  - rewrite (get_bearer_token_cached _ _ Hdue).
    destruct (token_expiry_date self) as [expiry |].
    + destruct (datetime_add expiry THIRTY_SECONDS).
      * destruct (_bearer_token self); mstep;
          (split; [reflexivity |]; split; [exists []; split; [cbn [tick sent]; now rewrite app_nil_r | constructor] | now left]).
      * mstep. split; [reflexivity |]. split; [| now left].
        exists []. split; [cbn [tick sent]; now rewrite app_nil_r | constructor].
    + mstep. split; [reflexivity |]. split; [| now left].
      exists []. split; [cbn [tick sent]; now rewrite app_nil_r | constructor].
Qed.

End TokenFacts.

(** *** The six operations as guarded calls *)

Section Operations.

Variable E : Env.

Lemma guarded_call_eq {A B} (prepare : result B) (request : json -> B -> Request)
    (digest : Response -> result A) self w :
  guarded_call E prepare request digest self w =
    match get_bearer_token E self w with
    | (Raise e, self1, w1) => (Raise e, self1, w1)
    | (Ok token, self1, w1) =>
        match prepare with
        | Raise e => (Raise e, self1, w1)
        | Ok b =>
            (match respond E (sent w1) (request token b) with
             | Some response => digest response
             | None => Raise ConnectionError
             end, self1, log (request token b) w1)
        end
    end.
Proof.
  unfold guarded_call, send. mstep.
  destruct (get_bearer_token E self w) as [[[token | e] self1] w1]; [| reflexivity].
  destruct prepare as [b | e]; [| reflexivity].
  now destruct (respond E (sent w1) (request token b)).
Qed.

Ltac guarded :=
  unfold guarded_call, requests_get, requests_put, requests_post, send; mstep;
  match goal with
  | |- context [get_bearer_token E ?s ?v] =>
      destruct (get_bearer_token E s v) as [[[? | ?] ?] ?]; [| reflexivity]
  end;
  repeat match goal with
  | |- context [match respond E ?l ?r with _ => _ end] =>
      destruct (respond E l r); [| reflexivity]
  | |- context [match raise_for_status ?r with _ => _ end] =>
      destruct (raise_for_status r); [| reflexivity]
  | |- context [match json_of ?r with _ => _ end] =>
      destruct (json_of r); [| reflexivity]
  | |- context [match open_rb E ?p with _ => _ end] =>
      destruct (open_rb E p); [| reflexivity]; mstep
  end;
  try reflexivity.

Lemma get_address_by_cpr_guarded cpr self w :
  get_address_by_cpr E cpr self w =
    guarded_call E (Ok tt)
      (fun token _ => address_request token (uuid4 E (draws w)) cpr)
      (fun response => raise_for_status response ;; json_of response)
      self (draw w).
Proof. unfold get_address_by_cpr, address_request. guarded. Qed.

Lemma get_cases_guarded cpr case_number case_title self w :
  any [truthy cpr; truthy case_number; truthy case_title] = true ->
  get_cases E cpr case_number case_title self w =
    guarded_call E (Ok tt)
      (fun token _ => cases_request token (uuid4 E (draws w)) cpr case_number case_title)
      (fun response => raise_for_status response ;; j <- json_of response ;; cases_of j)
      self (draw w).
Proof.
  intros Hany. unfold get_cases, cases_request, json_headers. rewrite Hany.
  cbn [negb]. guarded.
Qed.

Lemma get_cases_rejected cpr case_number case_title self w :
  any [truthy cpr; truthy case_number; truthy case_title] = false ->
  get_cases E cpr case_number case_title self w
  = (Raise (ValueError "No search terms given."), self, w).
Proof. intros Hany. unfold get_cases. now rewrite Hany. Qed.

Lemma upload_document_guarded document_path self w :
  upload_document E document_path self w =
    guarded_call E
      (match open_rb E document_path with
       | Some bytes => Ok bytes
       | None => Raise OSError
       end)
      (fun token file =>
         upload_request E token (uuid4 E (draws w)) (uuid4 E (S (draws w)))
           document_path file)
      (fun response => raise_for_status response ;; ret (uuid4 E (S (draws w))))
      self (draw (draw w)).
Proof. unfold upload_document, upload_request, mime_type_of. guarded. Qed.

Lemma get_documents_guarded case_uuid self w :
  get_documents E case_uuid self w =
    guarded_call E (Ok tt)
      (fun token _ => documents_request token (uuid4 E (draws w)) case_uuid)
      (fun response => raise_for_status response ;; j <- json_of response ;; documents_of j)
      self (draw w).
Proof. unfold get_documents, documents_request, json_headers. guarded. Qed.

Lemma download_document_file_guarded document_uuid checkout checkout_comment self w :
  download_document_file E document_uuid checkout checkout_comment self w =
    guarded_call E (Ok tt)
      (fun token _ =>
         download_request token (uuid4 E (draws w)) document_uuid
           (match checkout with Some b => b | None => false end) checkout_comment)
      (fun response => raise_for_status response ;; ret (content response))
      self (draw w).
Proof. unfold download_document_file, download_request, json_headers. guarded. Qed.

Lemma attach_document_to_case_guarded case_uuid document unit_id unit_name self w :
  attach_document_to_case E case_uuid document unit_id unit_name self w =
    guarded_call E (Ok tt)
      (fun token _ =>
         attach_request token
           (attach_payload (uuid4 E (draws w)) case_uuid document
              (strftime E (now E (ticks w)) "%Y-%m-%dT%H:%M:%SZ")
              (security_unit_id_of unit_id) (security_unit_name_of unit_name)))
      raise_for_status
      self (tick (draw w)).
Proof.
  unfold attach_document_to_case, attach_request, json_headers,
    security_unit_id_of, security_unit_name_of.
  guarded.
Qed.

End Operations.

(** ** The claims *)

(** *** Token reuse and refresh *)

(** C1 (the code as written): [get_bearer_token] compares
    [token_expiry_date + 30 s] with the clock.  As long as the clock has not
    passed the stored expiry by more than 30 seconds, which includes a token
    that expires within the next 30 seconds and a token that expired up to
    30 seconds ago, the stored token is handed out as it is, the client is
    unchanged and no request is issued; only once the clock is more than
    30 seconds past the expiry is [_get_new_token] run. *)
Theorem C1_get_bearer_token_tests_thirty_seconds_late :
  forall (E : Env) (self : NovaESDH) (w : World) (expiry : datetime) (token : json),
    token_expiry_date self = Some expiry ->
    _bearer_token self = Some token ->
    0 <= expiry + THIRTY_SECONDS <= DATETIME_MAX ->
    (now E (ticks w) <= expiry + THIRTY_SECONDS ->
       get_bearer_token E self w = (Ok token, self, tick w)
       /\ issued w (world_after (get_bearer_token E self w)) = [])
    /\ (expiry + THIRTY_SECONDS < now E (ticks w) ->
        get_bearer_token E self w =
          match _get_new_token E self (tick w) with
          | (Ok p, self', w') => (Ok (fst p), with_token self' (fst p) (snd p), w')
          | (Raise e, self', w') => (Raise e, self', w')
          end).
Proof.
  intros E self w expiry token Hexpiry Htoken Hrange.
  assert (Hadd : datetime_add expiry THIRTY_SECONDS = Ok (expiry + THIRTY_SECONDS)).
  { unfold datetime_add.
    destruct (Z.leb_spec 0 (expiry + THIRTY_SECONDS)); [| lia].
    destruct (Z.leb_spec (expiry + THIRTY_SECONDS) DATETIME_MAX); [reflexivity | lia]. }
  split.
  - intros Hnow.
    assert (Hdue : refresh_due self (now E (ticks w)) = false).
    { unfold refresh_due. rewrite Hexpiry, Hadd. now apply Z.ltb_ge. }
    rewrite (get_bearer_token_cached E self w Hdue), Hexpiry, Hadd, Htoken.
    split; [reflexivity |]. apply issued_app. cbn. now rewrite app_nil_r.
  - intros Hnow. apply get_bearer_token_refresh.
    unfold refresh_due. rewrite Hexpiry, Hadd. now apply Z.ltb_lt.
Qed.

(** A token that expired ten seconds ago is still handed out. *)
Lemma C1_expired_token_is_reused :
  get_bearer_token Sample.good (Sample.client (-10 * MICROSECOND)) Sample.start
  = (Ok (JStr "tok-old"), Sample.client (-10 * MICROSECOND), tick Sample.start)
  /\ issued Sample.start
       (world_after (get_bearer_token Sample.good (Sample.client (-10 * MICROSECOND))
                       Sample.start)) = [].
Proof.
  apply (C1_get_bearer_token_tests_thirty_seconds_late Sample.good
           (Sample.client (-10 * MICROSECOND)) Sample.start
           (Sample.T0 + -10 * MICROSECOND) (JStr "tok-old")
           eq_refl eq_refl).
  - split; discriminate.
  - discriminate.
Defined.

(** *** Validation of the search terms *)

(** C2: a case search without any of the three terms raises [ValueError]
    at once: no uuid is drawn, the clock is not read, no request is issued and
    the client is unchanged. *)
Theorem C2_get_cases_without_terms_raises :
  forall (E : Env) (self : NovaESDH) (w : World),
    get_cases E None None None self w
    = (Raise (ValueError "No search terms given."), self, w)
    /\ issued w (world_after (get_cases E None None None self w)) = [].
Proof.
  intros E self w. split; [reflexivity |]. apply issued_refl.
Qed.

(** C9: the test is one of truthiness, so an empty string counts as a
    missing term: with each term [None] or [""] the search raises the same
    [ValueError] and leaves client and world as they were. *)
Theorem C9_get_cases_empty_terms_raise :
  forall (E : Env) (cpr case_number case_title : option string)
         (self : NovaESDH) (w : World),
    (cpr = None \/ cpr = Some "") ->
    (case_number = None \/ case_number = Some "") ->
    (case_title = None \/ case_title = Some "") ->
    get_cases E cpr case_number case_title self w
    = get_cases E None None None self w
    /\ get_cases E cpr case_number case_title self w
      = (Raise (ValueError "No search terms given."), self, w)
    /\ issued w (world_after (get_cases E cpr case_number case_title self w)) = [].
Proof.
  intros E cpr case_number case_title self w [-> | ->] [-> | ->] [-> | ->];
    (split; [reflexivity |]; split; [reflexivity |]; apply issued_refl).
Qed.

Lemma C9_empty_strings_only :
  get_cases Sample.good (Some "") None (Some "") (Sample.client 0) Sample.start
  = (Raise (ValueError "No search terms given."), Sample.client 0, Sample.start).
Proof.
  apply (C9_get_cases_empty_terms_raise Sample.good (Some "") None (Some "")
           (Sample.client 0) Sample.start
           (or_intror eq_refl) (or_introl eq_refl) (or_intror eq_refl)).
Defined.

(** *** Conversion of the case search answer *)

Section Loops.

Context {A B : Type} (f : A -> result B).

(** A loop that ends normally has converted every element, in order. *)
Lemma for_each_Ok xs ys :
  for_each f xs = Ok ys -> Forall2 (fun x y => f x = Ok y) xs ys.
Proof.
  revert ys. induction xs as [| x xs IH]; intros ys H; simpl in H.
  - injection H as <-. constructor.
  - destruct (f x) as [y | e] eqn:Hx; [| discriminate].
    destruct (for_each f xs) as [ys' | e]; [| discriminate].
    injection H as <-. constructor; auto.
Qed.

(** A loop over elements that all convert ends normally, and what holds
    between each element and its image holds along the two lists. *)
Lemma for_each_total (R : A -> B -> Prop) xs :
  Forall (fun x => exists y, f x = Ok y /\ R x y) xs ->
  exists ys, for_each f xs = Ok ys /\ Forall2 R xs ys.
Proof.
  induction 1 as [| x xs (y & Hy & Hxy) _ (ys & Hys & Hrel)]; simpl.
  - exists []. split; [reflexivity | constructor].
  - rewrite Hy, Hys. exists (y :: ys). split; [reflexivity | now constructor].
Qed.

(** A loop in which some element raises, raises what the first such element
    raises. *)
Lemma for_each_Raise xs (P : exn -> Prop) :
  Forall (fun x => match f x with Ok _ => True | Raise e => P e end) xs ->
  Exists (fun x => exists e, f x = Raise e) xs ->
  exists e, for_each f xs = Raise e /\ P e.
Proof.
  intros Hall Hex. induction Hall as [| x xs Hx Hall IH]; [inversion Hex |].
  simpl. destruct (f x) as [y | e] eqn:Hfx.
  - inversion Hex as [? ? [e He] | ? ? Hrest]; subst; [congruence |].
    destruct (IH Hrest) as (e & -> & He). now exists e.
  - now exists e.
Qed.

End Loops.

Lemma has_key_subscript v k :
  has_key v k = true -> exists x, subscript v k = Ok x.
Proof.
  destruct v; try discriminate. simpl.
  destruct (dict_lookup kvs k) as [x |]; [now exists x | discriminate].
Qed.

Lemma has_key2_subscript2 v k1 k2 :
  has_key2 v k1 k2 = true -> exists x, subscript2 v k1 k2 = Ok x.
Proof.
  unfold has_key2, subscript2. cbn [bind Monad_result result_bind].
  destruct (subscript v k1) as [inner | e]; [apply has_key_subscript | discriminate].
Qed.

Lemma dict_get_absent v k default x :
  dict_get v k default = Ok x -> has_key v k = false -> x = default.
Proof.
  destruct v; try discriminate. simpl.
  destruct (dict_lookup kvs k); [discriminate | congruence].
Qed.

Lemma party_of_maps party_dict party :
  party_of party_dict = Ok party -> maps_to_party party_dict party.
Proof.
  unfold party_of, maps_to_party. cbn [bind ret Monad_result result_bind].
  destruct (subscript party_dict "identificationType"); [| discriminate].
  destruct (subscript party_dict "identification"); [| discriminate].
  destruct (subscript party_dict "partyRole"); [| discriminate].
  destruct (dict_get party_dict "name" JNull) as [name |] eqn:Hname; [| discriminate].
  intros [= <-]. cbn. repeat split. now apply (dict_get_absent _ _ _ _ Hname).
Qed.

Lemma party_of_total party_dict :
  party_shape party_dict = true -> exists party, party_of party_dict = Ok party.
Proof.
  unfold party_shape, party_of. cbn [bind ret Monad_result result_bind].
  intros H. destruct party_dict; try discriminate. cbn in *.
  destruct (dict_lookup kvs "identificationType"); [| discriminate].
  destruct (dict_lookup kvs "identification"); [| discriminate].
  destruct (dict_lookup kvs "partyRole"); [| discriminate].
  destruct (dict_lookup kvs "name"); eexists; reflexivity.
Qed.

Lemma case_of_total case_dict :
  case_shape case_dict = true ->
  exists case, case_of case_dict = Ok case /\ maps_to_case case_dict case.
Proof.
  unfold case_shape, case_of, maps_to_case.
  cbn [bind ret Monad_result result_bind].
  intros H. repeat (apply andb_prop in H; destruct H as [H ?]).
  destruct (subscript case_dict "caseParties") as [[| | | | | party_dicts |] |];
    try discriminate.
  cbn [bind ret Monad_result result_bind iterate].
  destruct (for_each_total party_of maps_to_party party_dicts)
    as (parties & Hparties & Hrel).
  { rewrite forallb_forall in H. apply Forall_forall.
    intros party_dict Hin.
    destruct (party_of_total party_dict (H party_dict Hin)) as [party Hparty].
    exists party. split; [exact Hparty | now apply party_of_maps]. }
  rewrite Hparties.
  repeat match goal with
  | Hk : has_key2 _ _ _ = true |- _ =>
      apply has_key2_subscript2 in Hk; destruct Hk as [? ->]
  end.
  eexists. split; [reflexivity |]. exists party_dicts. cbn.
  split; [reflexivity |]. split; [exact Hrel |].
  symmetry. eapply Forall2_length. exact Hrel.
Qed.

Lemma cases_of_total j case_dicts :
  subscript j "cases" = Ok (JList case_dicts) ->
  forallb case_shape case_dicts = true ->
  exists cases, cases_of j = Ok cases /\ Forall2 maps_to_case case_dicts cases.
Proof.
  intros Hcases Hshape. unfold cases_of. cbn [bind Monad_result result_bind].
  rewrite Hcases. cbn [bind ret Monad_result result_bind iterate].
  apply for_each_total. apply Forall_forall. intros case_dict Hin.
  rewrite forallb_forall in Hshape. now apply case_of_total, Hshape.
Qed.

(** *** What a guarded call sends and changes *)

Section Calls.

Variable E : Env.

Context {A B : Type} (prepare : result B) (request : json -> B -> Request)
        (digest : Response -> result A).

(** The log after a guarded call: what [get_bearer_token] sent to the token
    address, then the operation's own request. *)
Lemma guarded_call_log self w :
  exists rs,
    issued w (world_after (get_bearer_token E self w)) = rs
    /\ Forall (fun r => url r = token_url) rs
    /\ issued w (world_after (guarded_call E prepare request digest self w))
       = (rs ++ own_request E prepare request self w)%list.
Proof.
  destruct (get_bearer_token_frame E self w) as (_ & (rs & Hsent & Htoken) & _).
  exists rs. split; [exact (issued_app _ _ _ Hsent) |]. split; [exact Htoken |].
  rewrite guarded_call_eq. unfold own_request.
  destruct (get_bearer_token E self w) as [[[token | e] self1] w1]; mstep.
  - destruct prepare as [b | e].
    + apply issued_app. cbn [snd log sent]. rewrite Hsent. now rewrite <- app_assoc.
    + apply issued_app. now rewrite app_nil_r.
  - apply issued_app. now rewrite app_nil_r.
Qed.

(** The client after a guarded call is the client after [get_bearer_token],
    and no uuid is drawn. *)
Lemma guarded_call_self self w :
  self_after (guarded_call E prepare request digest self w)
  = self_after (get_bearer_token E self w)
  /\ draws (world_after (guarded_call E prepare request digest self w)) = draws w.
Proof.
  destruct (get_bearer_token_frame E self w) as (Hdraws & _ & _).
  rewrite guarded_call_eq.
  destruct (get_bearer_token E self w) as [[[token | e] self1] w1]; mstep;
    [| now split].
  destruct prepare as [b | e]; now split.
Qed.

End Calls.

Lemma filter_token_requests address rs :
  Forall (fun r => url r = token_url) rs ->
  String.eqb token_url address = false ->
  filter (to address) rs = [].
Proof.
  intros Hall Hne. induction Hall as [| r rs Hr _ IH]; [reflexivity |].
  simpl. unfold to at 1. now rewrite Hr, Hne.
Qed.

(** The requests a guarded call sends to the address of its own request. *)
Lemma guarded_call_own_requests (E : Env) {A B} (prepare : result B)
    (request : json -> B -> Request) (digest : Response -> result A)
    (address : string) self w :
  String.eqb token_url address = false ->
  (forall token b, url (request token b) = address) ->
  filter (to address)
    (issued w (world_after (guarded_call E prepare request digest self w)))
  = own_request E prepare request self w.
Proof.
  intros Hne Hurl.
  destruct (guarded_call_log E prepare request digest self w) as (rs & _ & Htoken & ->).
  rewrite filter_app, (filter_token_requests _ _ Htoken Hne). cbn [app].
  unfold own_request.
  destruct (outcome (get_bearer_token E self w)) as [token | e]; [| reflexivity].
  destruct prepare as [b | e]; [| reflexivity].
  cbn [filter]. unfold to. now rewrite Hurl, String.eqb_refl.
Qed.

(** The answer of an operation whose token was obtained and whose request
    was answered with a success status. *)
Lemma guarded_call_answer (E : Env) {A B} (prepare : result B)
    (request : json -> B -> Request) (digest : Response -> result A)
    self w token self1 w1 b response :
  get_bearer_token E self w = (Ok token, self1, w1) ->
  prepare = Ok b ->
  respond E (sent w1) (request token b) = Some response ->
  guarded_call E prepare request digest self w
  = (digest response, self1, log (request token b) w1).
Proof.
  intros Htoken Hprepare Hrespond.
  now rewrite guarded_call_eq, Htoken, Hprepare, Hrespond.
Qed.

(** C3: when the case search is answered with a success status and a body
    of the documented shape, [get_cases] returns one [NovaCase] per case of the
    answer whose [case_parties] are the parties of that case, one [CaseParty]
    for each, in the order received; a party without [name] gets [None] as its
    name. *)
Theorem C3_get_cases_maps_parties_in_order :
  forall (E : Env) (cpr case_number case_title : option string)
         (self self1 : NovaESDH) (w w1 : World) (token : json)
         (response : Response) (j : json) (case_dicts : list json),
    any [truthy cpr; truthy case_number; truthy case_title] = true ->
    get_bearer_token E self (draw w) = (Ok token, self1, w1) ->
    respond E (sent w1)
      (cases_request token (uuid4 E (draws w)) cpr case_number case_title)
    = Some response ->
    ok response = true ->
    parsed response = Some j ->
    subscript j "cases" = Ok (JList case_dicts) ->
    forallb case_shape case_dicts = true ->
    exists cases,
      outcome (get_cases E cpr case_number case_title self w) = Ok cases
      /\ Forall2 maps_to_case case_dicts cases.
Proof.
  intros E cpr case_number case_title self self1 w w1 token response j case_dicts
         Hany Htoken Hrespond Hok Hparsed Hcases Hshape.
  rewrite (get_cases_guarded E _ _ _ _ _ Hany).
  rewrite (guarded_call_answer E _ _ _ _ _ _ _ _ tt _ Htoken eq_refl Hrespond).
  unfold outcome. cbn [fst bind Monad_result result_bind].
  rewrite (raise_for_status_ok _ Hok). unfold json_of. rewrite Hparsed.
  now apply cases_of_total.
Qed.

(** The sample answer has one case with two parties, the second without a
    name. *)
Lemma C3_two_parties_in_order :
  exists cases,
    outcome (get_cases Sample.good None (Some "S2023-61078") None
               (Sample.client (100 * MICROSECOND)) Sample.start) = Ok cases
    /\ Forall2 maps_to_case
         match Sample.cases_body with
         | JDict [(_, JList case_dicts)] => case_dicts
         | _ => []
         end cases.
Proof.
  apply (C3_get_cases_maps_parties_in_order Sample.good
           None (Some "S2023-61078") None
           (Sample.client (100 * MICROSECOND)) (Sample.client (100 * MICROSECOND))
           Sample.start (tick (draw Sample.start)) (JStr "tok-old")
           {| status_code := 200; content := []; parsed := Some Sample.cases_body |}
           Sample.cases_body);
    reflexivity.
Defined.

Example two_parties_mapped :
  option_map (fun cases => map (fun c => map CaseParty.name (NovaCase.case_parties c)) cases)
    match outcome (get_cases Sample.good None (Some "S2023-61078") None
                     (Sample.client (100 * MICROSECOND)) Sample.start) with
    | Ok cases => Some cases
    | Raise _ => None
    end
  = Some [[JStr "Anna"; JNull]].
Proof. reflexivity. Qed.

(** *** Conversion of the document list answer *)

(** One turn of the loop over a dict: a document when every required field
    is there, or else the [KeyError] of the first required field that is
    not. *)
Lemma document_of_dict kvs :
  match document_of (JDict kvs) with
  | Ok document =>
      complete_document (JDict kvs) = true
      /\ maps_to_document (JDict kvs) document
  | Raise e =>
      complete_document (JDict kvs) = false /\ missing_field e
  end.
Proof.
  unfold document_of, complete_document, maps_to_document, missing_field,
    required_document_fields.
  cbn [bind ret Monad_result result_bind subscript dict_get forallb has_key].
  repeat match goal with
  | |- context [dict_lookup kvs ?k] =>
      destruct (dict_lookup kvs k);
      cbn [bind ret Monad_result result_bind andb
           NovaDocument.uuid NovaDocument.description];
      try solve [ split; [reflexivity
                         | eexists; split; [| reflexivity]; cbn; tauto] ]
  end;
  intuition (discriminate || auto).
Qed.

Lemma documents_of_missing_field j document_dicts :
  subscript j "documents" = Ok (JList document_dicts) ->
  forallb is_dict document_dicts = true ->
  forallb complete_document document_dicts = false ->
  exists e, documents_of j = Raise e /\ missing_field e.
Proof.
  intros Hdocs Hdicts Hmissing. unfold documents_of.
  cbn [bind Monad_result result_bind]. rewrite Hdocs.
  cbn [bind Monad_result result_bind iterate].
  rewrite forallb_forall in Hdicts.
  apply for_each_Raise.
  - apply Forall_forall. intros d Hin. specialize (Hdicts d Hin).
    destruct d; try discriminate.
    pose proof (document_of_dict kvs) as H.
    destruct (document_of (JDict kvs)); [exact I | apply H].
  - assert (Hex : existsb (fun d => negb (complete_document d)) document_dicts = true).
    { clear -Hmissing. induction document_dicts as [| d ds IH]; [discriminate |].
      simpl in *. destruct (complete_document d); [now apply IH | reflexivity]. }
    apply existsb_exists in Hex. destruct Hex as (d & Hin & Hd).
    apply Exists_exists. exists d. split; [exact Hin |].
    specialize (Hdicts d Hin). destruct d; try discriminate.
    pose proof (document_of_dict kvs) as H.
    destruct (document_of (JDict kvs)) as [document | e].
    + destruct H as [H _]. rewrite H in Hd. discriminate.
    + now exists e.
Qed.

Lemma documents_of_complete j document_dicts :
  subscript j "documents" = Ok (JList document_dicts) ->
  forallb is_dict document_dicts = true ->
  forallb complete_document document_dicts = true ->
  exists documents,
    documents_of j = Ok documents
    /\ Forall2 maps_to_document document_dicts documents.
Proof.
  intros Hdocs Hdicts Hcomplete. unfold documents_of.
  cbn [bind Monad_result result_bind]. rewrite Hdocs.
  cbn [bind Monad_result result_bind iterate].
  rewrite forallb_forall in Hdicts, Hcomplete.
  apply for_each_total. apply Forall_forall. intros d Hin.
  specialize (Hdicts d Hin). specialize (Hcomplete d Hin).
  destruct d; try discriminate.
  pose proof (document_of_dict kvs) as H.
  destruct (document_of (JDict kvs)) as [document | e].
  - exists document. split; [reflexivity | apply H].
  - destruct H as [H _]. congruence.
Qed.

(** C4: when the document list is answered with a success status and a
    list of dicts, a document that lacks one of the required fields makes
    [get_documents] raise the [KeyError] of a required field, which is not
    the [HTTPError] of a failed request, and nothing is returned; when no
    required field is missing, the documents are returned, and a document
    without [description] gets [None] as its description. *)
Theorem C4_get_documents_missing_field_raises :
  forall (E : Env) (case_uuid : string) (self self1 : NovaESDH) (w w1 : World)
         (token : json) (response : Response) (j : json)
         (document_dicts : list json),
    get_bearer_token E self (draw w) = (Ok token, self1, w1) ->
    respond E (sent w1) (documents_request token (uuid4 E (draws w)) case_uuid)
    = Some response ->
    ok response = true ->
    parsed response = Some j ->
    subscript j "documents" = Ok (JList document_dicts) ->
    forallb is_dict document_dicts = true ->
    (forallb complete_document document_dicts = false ->
       exists k,
         In k required_document_fields
         /\ outcome (get_documents E case_uuid self w) = Raise (KeyError k)
         /\ (forall status, KeyError k <> HTTPError status)
         /\ (forall documents,
               outcome (get_documents E case_uuid self w) <> Ok documents))
    /\ (forallb complete_document document_dicts = true ->
        exists documents,
          outcome (get_documents E case_uuid self w) = Ok documents
          /\ Forall2 maps_to_document document_dicts documents).
Proof.
  intros E case_uuid self self1 w w1 token response j document_dicts
         Htoken Hrespond Hok Hparsed Hdocs Hdicts.
  rewrite get_documents_guarded.
  rewrite (guarded_call_answer E _ _ _ _ _ _ _ _ tt _ Htoken eq_refl Hrespond).
  unfold outcome. cbn [fst bind Monad_result result_bind].
  rewrite (raise_for_status_ok _ Hok). unfold json_of. rewrite Hparsed.
  cbn [bind Monad_result result_bind].
  split.
  - intros Hmissing.
    destruct (documents_of_missing_field j document_dicts Hdocs Hdicts Hmissing)
      as (e & -> & k & Hk & ->).
    exists k. repeat split; [exact Hk | discriminate | discriminate].
  - now apply documents_of_complete.
Qed.

(** The sample answer without [documentUuid]. *)
Lemma C4_missing_documentUuid :
  exists k,
    In k required_document_fields
    /\ outcome (get_documents (Sample.env 200 3600 Sample.broken_documents_body) "c-1"
                 (Sample.client (100 * MICROSECOND)) Sample.start)
       = Raise (KeyError k)
    /\ (forall status, KeyError k <> HTTPError status)
    /\ (forall documents,
          outcome (get_documents (Sample.env 200 3600 Sample.broken_documents_body) "c-1"
                     (Sample.client (100 * MICROSECOND)) Sample.start)
          <> Ok documents).
Proof.
  apply (C4_get_documents_missing_field_raises
           (Sample.env 200 3600 Sample.broken_documents_body) "c-1"
           (Sample.client (100 * MICROSECOND)) (Sample.client (100 * MICROSECOND))
           Sample.start (tick (draw Sample.start)) (JStr "tok-old")
           {| status_code := 200; content := [];
              parsed := Some Sample.broken_documents_body |}
           Sample.broken_documents_body
           match Sample.broken_documents_body with
           | JDict [(_, JList document_dicts)] => document_dicts
           | _ => []
           end);
    reflexivity.
Defined.

Example missing_documentUuid :
  outcome (get_documents (Sample.env 200 3600 Sample.broken_documents_body) "c-1"
             (Sample.client (100 * MICROSECOND)) Sample.start)
  = Raise (KeyError "documentUuid").
Proof. reflexivity. Qed.

Example description_defaults_to_None :
  match outcome (get_documents Sample.good "c-1"
                   (Sample.client (100 * MICROSECOND)) Sample.start) with
  | Ok documents => map NovaDocument.description documents
  | Raise _ => []
  end = [JNull].
Proof. reflexivity. Qed.

(** *** Paging *)









(** *** Attaching a document *)

Lemma attach_requests_own (E : Env) case_uuid document unit_id unit_name self w :
  attach_requests E case_uuid document unit_id unit_name self w
  = match outcome (get_bearer_token E self (tick (draw w))) with
    | Ok token =>
        [attach_request token
           (attach_payload (uuid4 E (draws w)) case_uuid document
              (strftime E (now E (ticks w)) "%Y-%m-%dT%H:%M:%SZ")
              (security_unit_id_of unit_id) (security_unit_name_of unit_name))]
    | Raise _ => []
    end.
Proof.
  unfold attach_requests. rewrite attach_document_to_case_guarded.
  change (issued w) with (issued (tick (draw w))).
  rewrite (guarded_call_own_requests E _ _ _ attach_url);
    [| reflexivity | reflexivity].
  unfold own_request.
  now destruct (outcome (get_bearer_token E self (tick (draw w)))).
Qed.

(** C6 (as amended): a call of [attach_document_to_case] in which
    [get_bearer_token] returns sends exactly one request to the attach
    address; its body names the uuid of the supplied document, the clock
    reading taken by the call (not the date stored in the document) as
    [documentDate], and as security unit the arguments of the call, which are
    818485 and "Borgerservice" when omitted.  A call in which
    [get_bearer_token] raises sends no attach request. *)
Theorem C6_attach_sends_one_request_once_token_obtained :
  forall (E : Env) (case_uuid : string) (document : NovaDocument.t)
         (unit_id : option Z) (unit_name : option string)
         (self : NovaESDH) (w : World),
    (forall token,
        outcome (get_bearer_token E self (tick (draw w))) = Ok token ->
        one_attach_request E case_uuid document unit_id unit_name self w)
    /\ (forall e,
        outcome (get_bearer_token E self (tick (draw w))) = Raise e ->
        attach_requests E case_uuid document unit_id unit_name self w = [])
    /\ security_unit_id_of None = 818485
    /\ security_unit_name_of None = "Borgerservice"
    /\ (forall n, security_unit_id_of (Some n) = n)
    /\ (forall s, security_unit_name_of (Some s) = s).
Proof.
  intros E case_uuid document unit_id unit_name self w.
  split; [| split; [| now repeat split]].
  - intros token Htoken. unfold one_attach_request.
    rewrite attach_requests_own, Htoken.
    eexists. eexists. split; [reflexivity |]. now repeat split.
  - intros e Htoken. now rewrite attach_requests_own, Htoken.
Qed.

(** With a token in hand the sample call sends its one request. *)
Lemma C6_attach_with_valid_token :
  one_attach_request Sample.good "c-1" Sample.letter None None
    (Sample.client (100 * MICROSECOND)) Sample.start.
Proof.
  apply (C6_attach_sends_one_request_once_token_obtained Sample.good "c-1"
           Sample.letter None None (Sample.client (100 * MICROSECOND)) Sample.start)
    with (token := JStr "tok-old").
  reflexivity.
Defined.

(** Counterexample to C6 as stated ("for every call exactly one attach
    request is sent"): with a token that ran out 40 seconds ago and a token
    endpoint that answers 500, the call raises in [get_bearer_token] and sends
    no attach request at all. *)
Lemma C6_no_attach_request_when_refresh_fails :
  ~ one_attach_request (Sample.env 500 3600 JNull) "c-1" Sample.letter None None
      (Sample.client (-40 * MICROSECOND)) Sample.start.
Proof.
  intros (r & body & Hsent & _). vm_compute in Hsent. discriminate.
Qed.

Example attach_raises_when_refresh_fails :
  outcome (attach_document_to_case (Sample.env 500 3600 JNull) "c-1" Sample.letter
             None None (Sample.client (-40 * MICROSECOND)) Sample.start)
  = Raise (HTTPError 500).
Proof. reflexivity. Qed.

(** *** Uploading a document *)

Lemma token_url_not_upload_url transaction_id document_id :
  String.eqb token_url (upload_url transaction_id document_id) = false.
Proof. reflexivity. Qed.

Lemma upload_requests_own (E : Env) document_path self w :
  upload_requests E document_path self w
  = match outcome (get_bearer_token E self (draw (draw w))), open_rb E document_path with
    | Ok token, Some file =>
        [upload_request E token (uuid4 E (draws w)) (uuid4 E (S (draws w)))
           document_path file]
    | _, _ => []
    end.
Proof.
  unfold upload_requests. rewrite upload_document_guarded.
  change (issued w) with (issued (draw (draw w))).
  rewrite (guarded_call_own_requests E _ _ _
             (upload_url (uuid4 E (draws w)) (uuid4 E (S (draws w)))));
    [| apply token_url_not_upload_url | reflexivity].
  unfold own_request.
  destruct (outcome (get_bearer_token E self (draw (draw w)))); [| reflexivity].
  now destruct (open_rb E document_path).
Qed.

Lemma upload_document_Ok (E : Env) document_path self w v :
  outcome (upload_document E document_path self w) = Ok v ->
  v = uuid4 E (S (draws w))
  /\ exists token file,
       outcome (get_bearer_token E self (draw (draw w))) = Ok token
       /\ open_rb E document_path = Some file.
Proof.
  rewrite upload_document_guarded, guarded_call_eq.
  destruct (get_bearer_token E self (draw (draw w))) as [[[token | e] self1] w1];
    mstep; [| discriminate].
  destruct (open_rb E document_path) as [file |]; mstep; [| discriminate].
  destruct (respond E (sent w1) _) as [response |]; [| discriminate].
  destruct (raise_for_status response); [| discriminate].
  intros [= <-]. split; [reflexivity |]. now exists token, file.
Qed.

(** C7 (as amended): every call of [upload_document] draws two uuids, the
    first as transaction id and the second as document id (different values
    whenever the generator never repeats itself).  When [get_bearer_token]
    returns and the file opens, the file is sent, in exactly one request: a
    POST to the address that carries both ids, authorised with the token
    [get_bearer_token] returned, with the bytes of the file as the multipart
    field [file] under the type guessed from the path, or
    [application/octet-stream] when there is no guess.  When
    [get_bearer_token] raises or the file does not open, nothing is uploaded.
    When that request is answered without error status the call returns the
    document id of that address; and a call that returns, returns that id and
    has sent the file. *)
Theorem C7_upload_document_returns_generated_id :
  forall (E : Env) (document_path : string) (self : NovaESDH) (w : World),
    let transaction_id := uuid4 E (draws w) in
    let document_id := uuid4 E (S (draws w)) in
    draws (world_after (upload_document E document_path self w)) = S (S (draws w))
    /\ ((forall a b, uuid4 E a = uuid4 E b -> a = b) -> transaction_id <> document_id)
    /\ (forall token file,
          url (upload_request E token transaction_id document_id document_path file)
          = DOMAIN ++ "/api/Document/UploadFile/" ++ transaction_id ++ "/"
            ++ document_id ++ "?api-version=1.0-Case"
          /\ verb (upload_request E token transaction_id document_id document_path file)
             = POST
          /\ headers (upload_request E token transaction_id document_id document_path file)
             = [("Authorization", Bearer token); ("accept", Plain "*/*")]
          /\ payload (upload_request E token transaction_id document_id document_path file)
             = Files "file" (basename E document_path) file
                 match guess_type E document_path with
                 | Some guessed => guessed
                 | None => "application/octet-stream"
                 end)
    /\ (forall token file,
          outcome (get_bearer_token E self (draw (draw w))) = Ok token ->
          open_rb E document_path = Some file ->
          upload_requests E document_path self w
          = [upload_request E token transaction_id document_id document_path file]
          /\ file_is_sent E document_path self w)
    /\ (forall e,
          outcome (get_bearer_token E self (draw (draw w))) = Raise e ->
          upload_requests E document_path self w = [])
    /\ (open_rb E document_path = None -> upload_requests E document_path self w = [])
    /\ (forall token self1 w1 file response,
          get_bearer_token E self (draw (draw w)) = (Ok token, self1, w1) ->
          open_rb E document_path = Some file ->
          respond E (sent w1)
            (upload_request E token transaction_id document_id document_path file)
          = Some response ->
          ok response = true ->
          upload_document E document_path self w
          = (Ok document_id, self1,
             log (upload_request E token transaction_id document_id document_path file)
               w1))
    /\ (forall v,
          outcome (upload_document E document_path self w) = Ok v ->
          v = document_id /\ file_is_sent E document_path self w).
Proof.
  intros E document_path self w transaction_id document_id.
  assert (Hsent : forall token file,
             outcome (get_bearer_token E self (draw (draw w))) = Ok token ->
             open_rb E document_path = Some file ->
             upload_requests E document_path self w
             = [upload_request E token transaction_id document_id document_path file]
             /\ file_is_sent E document_path self w).
  { intros token file Htoken Hfile.
    assert (Hown : upload_requests E document_path self w
                   = [upload_request E token transaction_id document_id
                        document_path file])
      by now rewrite upload_requests_own, Htoken, Hfile.
    split; [exact Hown |]. now exists token, file. }
  split; [| split; [| split; [| split; [| split; [| split; [| split]]]]]].
  - rewrite upload_document_guarded.
    match goal with
    | |- context [guarded_call E ?p ?r ?d ?s ?v] =>
        destruct (guarded_call_self E p r d s v) as [_ ->]
    end.
    reflexivity.
  - intros Hinj Heq. apply Hinj in Heq. lia.
  - intros token file. split; [reflexivity |]. split; [reflexivity |].
    split; [reflexivity |].
    unfold upload_request, mime_type_of. cbn [payload].
    now destruct (guess_type E document_path).
  - exact Hsent.
  - intros e Htoken. now rewrite upload_requests_own, Htoken.
  - intros Hfile. rewrite upload_requests_own, Hfile.
    now destruct (outcome (get_bearer_token E self (draw (draw w)))).
  - intros token self1 w1 file response Htoken Hfile Hrespond Hok.
    rewrite upload_document_guarded, guarded_call_eq, Htoken, Hfile.
    subst transaction_id document_id. rewrite Hrespond.
    cbn [bind ret Monad_result result_bind].
    now rewrite (raise_for_status_ok _ Hok).
  - intros v Hv.
    destruct (upload_document_Ok E document_path self w v Hv)
      as (-> & token & file & Htoken & Hfile).
    split; [reflexivity |]. now apply (Hsent token file).
Qed.

(** The sample upload: the second uuid comes back, and the file went out
    under the stored token. *)
Lemma C7_upload_returns_second_uuid :
  upload_document Sample.good "brev.pdf" (Sample.client (100 * MICROSECOND)) Sample.start
  = (Ok "uuid-1", Sample.client (100 * MICROSECOND),
     log (upload_request Sample.good (JStr "tok-old") "uuid-0" "uuid-1" "brev.pdf" [])
       (tick (draw (draw Sample.start))))
  /\ file_is_sent Sample.good "brev.pdf" (Sample.client (100 * MICROSECOND)) Sample.start.
Proof.
  pose proof (C7_upload_document_returns_generated_id Sample.good "brev.pdf"
                (Sample.client (100 * MICROSECOND)) Sample.start)
    as (_ & _ & _ & Hsent & _ & _ & Hreturn & _).
  split.
  - apply (Hreturn (JStr "tok-old") (Sample.client (100 * MICROSECOND))
             (tick (draw (draw Sample.start))) []
             {| status_code := 200; content := []; parsed := Some JNull |});
      reflexivity.
  - apply (Hsent (JStr "tok-old") []); reflexivity.
Defined.

(** Counterexample to C7 as stated ("for every call the file is sent"):
    with a token that ran out 40 seconds ago and a token endpoint that answers
    500, the call raises in [get_bearer_token] and the file is not sent. *)
Lemma C7_file_not_sent_when_refresh_fails :
  ~ file_is_sent (Sample.env 500 3600 JNull) "brev.pdf"
      (Sample.client (-40 * MICROSECOND)) Sample.start.
Proof.
  intros (token & file & _ & _ & Hsent). vm_compute in Hsent. discriminate.
Qed.

Example upload_guesses_pdf :
  map payload
    (issued Sample.start
       (world_after (upload_document Sample.good "brev.pdf"
                       (Sample.client (100 * MICROSECOND)) Sample.start)))
  = [Files "file" "brev.pdf" [] "application/pdf"].
Proof. reflexivity. Qed.

Example upload_falls_back_to_octet_stream :
  map payload
    (issued Sample.start
       (world_after (upload_document Sample.good "notes"
                       (Sample.client (100 * MICROSECOND)) Sample.start)))
  = [Files "file" "notes" [] "application/octet-stream"].
Proof. reflexivity. Qed.

Example upload_of_missing_file_sends_nothing :
  upload_document Sample.good "missing.bin" (Sample.client (100 * MICROSECOND)) Sample.start
  = (Raise OSError, Sample.client (100 * MICROSECOND), tick (draw (draw Sample.start))).
Proof. reflexivity. Qed.

(** *** Construction *)

Lemma timedelta_positive n :
  0 < n -> n / 86400 <= TIMEDELTA_MAX_DAYS -> timedelta n = Ok (n * MICROSECOND).
Proof.
  intros Hpos Hmax. unfold timedelta.
  assert (0 <= n / 86400) by (apply Z.div_pos; lia).
  destruct (Z.leb_spec (- TIMEDELTA_MAX_DAYS) (n / 86400));
    [| unfold TIMEDELTA_MAX_DAYS in *; lia].
  destruct (Z.leb_spec (n / 86400) TIMEDELTA_MAX_DAYS); [reflexivity | lia].
Qed.

Lemma datetime_add_in_range t delta :
  0 <= t + delta <= DATETIME_MAX -> datetime_add t delta = Ok (t + delta).
Proof.
  intros [Hlo Hhi]. unfold datetime_add.
  destruct (Z.leb_spec 0 (t + delta)); [| lia].
  destruct (Z.leb_spec (t + delta) DATETIME_MAX); [reflexivity | lia].
Qed.

(** C8 (as amended): construction runs the token exchange at once.  When
    the token endpoint answers with a success status, a token and a positive
    lifetime of [n] seconds that [timedelta] and [datetime] can represent (at
    most 999999999 days, and [now + n] not after the last [datetime]), the
    constructor returns a client that stores the token and the expiry
    [now + n] seconds, which lies after [now].  When the endpoint answers with
    an error status, the constructor raises [HTTPError] and no client comes
    into being; the object under construction never received a token or an
    expiry. *)
Theorem C8_construction_exchanges_token_eagerly :
  forall (E : Env) (id secret : string) (w : World) (response : Response),
    respond E (sent w) (token_request id secret) = Some response ->
    (forall j token n,
        ok response = true ->
        parsed response = Some j ->
        subscript j "access_token" = Ok token ->
        subscript j "expires_in" = Ok (JInt n) ->
        0 < n ->
        n / 86400 <= TIMEDELTA_MAX_DAYS ->
        0 <= now E (ticks w) ->
        now E (ticks w) + n * MICROSECOND <= DATETIME_MAX ->
        constructs_with_expiry E id secret w token n
        /\ issued w (snd (new E id secret w)) = [token_request id secret])
    /\ (ok response = false ->
        new E id secret w
        = (Raise (HTTPError (status_code response)), log (token_request id secret) w)
        /\ _bearer_token (self_after (__init__ E id secret blank w)) = None
        /\ token_expiry_date (self_after (__init__ E id secret blank w)) = None).
Proof.
  intros E id secret w response Hrespond.
  set (half := {| client_id := Some id; client_secret := Some secret;
                  _bearer_token := None; token_expiry_date := None |}).
  assert (Hinit : __init__ E id secret blank w =
                  match _get_new_token E half w with
                  | (Ok p, self', w') => (Ok tt, with_token self' (fst p) (snd p), w')
                  | (Raise e, self', w') => (Raise e, self', w')
                  end).
  { unfold __init__. mstep.
    cbn [client_id client_secret _bearer_token token_expiry_date blank].
    fold half.
    now destruct (_get_new_token E half w) as [[[p | e] self'] w']. }
  split.
  - intros j token n Hok Hparsed Htoken Hlife Hpos Hdays Hnow Hmax.
    assert (Hrange : 0 <= now E (ticks w) + n * MICROSECOND <= DATETIME_MAX)
      by (unfold MICROSECOND in *; lia).
    pose proof (get_new_token_ok E half w id secret response j token (JInt n) n
                  (n * MICROSECOND) (now E (ticks w) + n * MICROSECOND)
                  eq_refl eq_refl Hrespond Hok Hparsed Htoken Hlife eq_refl
                  (timedelta_positive n Hpos Hdays)
                  (datetime_add_in_range _ _ Hrange)) as Hnew.
    unfold constructs_with_expiry, new. rewrite Hinit, Hnew. cbn [fst snd].
    split.
    + eexists. split; [reflexivity | unfold MICROSECOND; lia].
    + apply issued_app. reflexivity.
  - intros Hok.
    pose proof (get_new_token_http_error E half w id secret response
                  eq_refl eq_refl Hrespond Hok) as Hnew.
    unfold new. rewrite Hinit, Hnew. now repeat split.
Qed.

(** The sample endpoint grants 3600 seconds. *)
Lemma C8_one_hour_token :
  constructs_with_expiry Sample.good "id" "secret" Sample.start (JStr "tok-new") 3600
  /\ issued Sample.start (snd (new Sample.good "id" "secret" Sample.start))
     = [token_request "id" "secret"].
Proof.
  apply (C8_construction_exchanges_token_eagerly Sample.good "id" "secret" Sample.start
           {| status_code := 200; content := [];
              parsed := Some (Sample.token_body 3600) |}
           eq_refl)
    with (j := Sample.token_body 3600);
    try reflexivity; discriminate.
Defined.

(** Counterexample to C8 as stated ("for every positive lifetime
    construction succeeds"): a lifetime of 10^15 seconds is more than
    [timedelta] can hold, so the constructor raises [OverflowError] although
    the endpoint answered 200. *)
Lemma C8_lifetime_beyond_timedelta :
  ~ eager_token_exchange (Sample.env 200 (10 ^ 15) JNull) "id" "secret" Sample.start.
Proof.
  intros H.
  destruct (H {| status_code := 200; content := [];
                 parsed := Some (Sample.token_body (10 ^ 15)) |}
              (Sample.token_body (10 ^ 15)) (JStr "tok-new") (10 ^ 15)
              eq_refl eq_refl eq_refl eq_refl eq_refl eq_refl)
    as (w' & Hnew & _).
  vm_compute in Hnew. discriminate.
Qed.

Example construction_overflows :
  fst (new (Sample.env 200 (10 ^ 15) JNull) "id" "secret" Sample.start)
  = Raise OverflowError.
Proof. reflexivity. Qed.

Example construction_fails_on_401 :
  new (Sample.env 401 3600 JNull) "id" "secret" Sample.start
  = (Raise (HTTPError 401), log (token_request "id" "secret") Sample.start).
Proof. reflexivity. Qed.

(** *** The client across the operations *)

(** [get_bearer_token] keeps the credentials and assigns to the token only
    in a due refresh. *)
Lemma get_bearer_token_keeps_client (E : Env) :
  keeps_client E ticks (get_bearer_token E).
Proof.
  intros self w.
  destruct (get_bearer_token_frame E self w) as (_ & _ & [Hsame | (Hdue & token & expiry & Hnew & _)]).
  - rewrite Hsame. split; [reflexivity |]. split; [reflexivity |].
    split; [now left | reflexivity].
  - rewrite Hnew. split; [reflexivity |]. split; [reflexivity |]. split.
    + right. split; [exact Hdue |]. now exists token, expiry.
    + rewrite Hdue. discriminate.
Qed.

(** A guarded call does to the client what its [get_bearer_token] does. *)
Lemma guarded_call_keeps_client (E : Env) {A B} (prepare : result B)
    (request : json -> B -> Request) (digest : Response -> result A) self w :
  client_id (self_after (guarded_call E prepare request digest self w)) = client_id self
  /\ client_secret (self_after (guarded_call E prepare request digest self w))
     = client_secret self
  /\ (self_after (guarded_call E prepare request digest self w) = self
      \/ (refresh_due self (now E (ticks w)) = true
          /\ exists token expiry,
               self_after (guarded_call E prepare request digest self w)
               = with_token self token expiry))
  /\ (refresh_due self (now E (ticks w)) = false ->
      self_after (guarded_call E prepare request digest self w) = self).
Proof.
  destruct (guarded_call_self E prepare request digest self w) as [-> _].
  apply get_bearer_token_keeps_client.
Qed.

(** C10: each of the six public operations leaves [client_id] and
    [client_secret] as they were; the client after the operation is either the
    client before it, or that client with a new token and expiry, and then the
    refresh test of [get_bearer_token] held at the clock reading of that test;
    when the test does not hold the client is unchanged. *)
Theorem C10_operations_keep_client :
  forall E : Env,
    (forall cpr, keeps_client E ticks (get_address_by_cpr E cpr))
    /\ (forall cpr case_number case_title,
          keeps_client E ticks (get_cases E cpr case_number case_title))
    /\ (forall document_path, keeps_client E ticks (upload_document E document_path))
    /\ (forall case_uuid, keeps_client E ticks (get_documents E case_uuid))
    /\ (forall document_uuid checkout checkout_comment,
          keeps_client E ticks
            (download_document_file E document_uuid checkout checkout_comment))
    /\ (forall case_uuid document unit_id unit_name,
          keeps_client E (fun w => S (ticks w))
            (attach_document_to_case E case_uuid document unit_id unit_name)).
Proof.
  intros E. split; [| split; [| split; [| split; [| split]]]]; intros;
    intros self w.
  - rewrite get_address_by_cpr_guarded.
    exact (guarded_call_keeps_client E _ _ _ self (draw w)).
  - destruct (any [truthy cpr; truthy case_number; truthy case_title]) eqn:Hany.
    + rewrite (get_cases_guarded E _ _ _ _ _ Hany).
      exact (guarded_call_keeps_client E _ _ _ self (draw w)).
    + rewrite (get_cases_rejected E _ _ _ _ _ Hany). mstep.
      split; [reflexivity |]. split; [reflexivity |]. split; [now left | reflexivity].
  - rewrite upload_document_guarded.
    exact (guarded_call_keeps_client E _ _ _ self (draw (draw w))).
  - rewrite get_documents_guarded.
    exact (guarded_call_keeps_client E _ _ _ self (draw w)).
  - rewrite download_document_file_guarded.
    exact (guarded_call_keeps_client E _ _ _ self (draw w)).
  - rewrite attach_document_to_case_guarded.
    exact (guarded_call_keeps_client E _ _ _ self (tick (draw w))).
Qed.

Example refresh_replaces_only_the_token :
  self_after (get_documents Sample.good "c-1" (Sample.client (-40 * MICROSECOND))
                Sample.start)
  = with_token (Sample.client (-40 * MICROSECOND)) (JStr "tok-new")
      (Sample.T0 + 3601 * MICROSECOND).
Proof. reflexivity. Qed.

(** ** Further properties of the client *)

(** *** One shape for the six operations *)

Section Family.

Variable E : Env.

(** An accepted call is a guarded call from its entry world. *)
Lemma perform_guarded c self w :
  accepted c = true ->
  perform E c self w
  = guarded_call E (prepared E c) (request_of E c w) (digest_of E c w) self (entry c w).
Proof.
  intros Haccepted. destruct c; cbn [perform prepared request_of digest_of entry].
  - rewrite get_address_by_cpr_guarded, !guarded_call_eq. reflexivity.
  - rewrite (get_cases_guarded E _ _ _ _ _ Haccepted), !guarded_call_eq. reflexivity.
  - apply upload_document_guarded.
  - rewrite get_documents_guarded, !guarded_call_eq. reflexivity.
  - rewrite download_document_file_guarded, !guarded_call_eq. reflexivity.
  - rewrite attach_document_to_case_guarded, !guarded_call_eq. reflexivity.
Qed.

(** A call that is not accepted is a case search without terms; it stops
    before anything happens. *)
Lemma perform_rejected c self w :
  accepted c = false ->
  world_after (perform E c self w) = w /\ self_after (perform E c self w) = self.
Proof.
  destruct c; try discriminate. cbn [accepted perform]. intros Hany.
  now rewrite (get_cases_rejected E _ _ _ _ _ Hany).
Qed.

Lemma issued_same_log w w' : sent w' = sent w -> issued w w' = [].
Proof. intros H. apply issued_app. now rewrite H, app_nil_r. Qed.

(** What [get_bearer_token] sends: nothing, or, in a due refresh, the one
    token request with the credentials of the client. *)
Lemma get_bearer_token_issued self w :
  issued w (world_after (get_bearer_token E self w)) = []
  \/ (refresh_due self (now E (ticks w)) = true
      /\ exists id secret,
           client_id self = Some id /\ client_secret self = Some secret
           /\ issued w (world_after (get_bearer_token E self w))
              = [token_request id secret]).
Proof.
  destruct (refresh_due self (now E (ticks w))) eqn:Hdue.
  - rewrite (get_bearer_token_refresh E _ _ Hdue).
    destruct (get_new_token_frame E self (tick w)) as (_ & _ & Hsent).
    destruct (_get_new_token E self (tick w)) as [[[p | e] self'] w']; mstep;
      (destruct Hsent as [-> | (id & secret & Hid & Hsecret & Hsent)];
       [left; now apply issued_same_log
       | right; split; [reflexivity |]; exists id, secret;
         split; [exact Hid |]; split; [exact Hsecret |];
         exact (issued_app (tick w) _ _ Hsent)]).
  - left. rewrite (get_bearer_token_cached E _ _ Hdue).
    destruct (token_expiry_date self) as [expiry |]; [| apply issued_refl].
    destruct (datetime_add expiry THIRTY_SECONDS); [| apply issued_refl].
    destruct (_bearer_token self); now apply issued_same_log.
Qed.

(** When [get_bearer_token] raises, it has assigned nothing. *)
Lemma get_bearer_token_raise_keeps self w e :
  outcome (get_bearer_token E self w) = Raise e ->
  self_after (get_bearer_token E self w) = self.
Proof.
  intros Hraise.
  destruct (get_bearer_token_frame E self w)
    as (_ & _ & [Hsame | (_ & token & expiry & _ & Hok)]); [exact Hsame |].
  congruence.
Qed.

End Family.

Section Exchange.

Variable E : Env.

Lemma issued_entry c w w' : issued (entry c w) w' = issued w w'.
Proof. now destruct c. Qed.

Lemma request_of_not_token c w token file :
  url (request_of E c w token file) <> token_url.
Proof. destruct c; discriminate. Qed.

Lemma request_of_timeout c w token file :
  timeout (request_of E c w token file) = TIMEOUT.
Proof. now destruct c. Qed.

Lemma request_of_authorized c w token file :
  In ("Authorization", Bearer token) (headers (request_of E c w token file)).
Proof. destruct c; cbn; auto. Qed.

(** An error status is all the call makes of an answer. *)
Lemma digest_of_error c w response :
  ok response = false ->
  digest_of E c w response = Raise (HTTPError (status_code response)).
Proof.
  intros Hok.
  destruct c; cbn [digest_of bind Monad_result result_bind];
    now rewrite (raise_for_status_error _ Hok).
Qed.

(** A call makes a value only of an answer without error status. *)
Lemma digest_of_Ok c w response v :
  digest_of E c w response = Ok v -> ok response = true.
Proof.
  destruct (ok response) eqn:Hok; [reflexivity |].
  now rewrite (digest_of_error c w response Hok).
Qed.

(** The requests of an accepted call: those of [get_bearer_token], then its
    own. *)
Lemma perform_issued c self w :
  accepted c = true ->
  issued w (world_after (perform E c self w))
  = (issued w (world_after (get_bearer_token E self (entry c w)))
     ++ own_request E (prepared E c) (request_of E c w) self (entry c w))%list.
Proof.
  intros Haccepted. rewrite (perform_guarded E c self w Haccepted).
  rewrite <- !(issued_entry c w).
  destruct (guarded_call_log E (prepared E c) (request_of E c w) (digest_of E c w)
              self (entry c w)) as (rs & <- & _ & ->).
  reflexivity.
Qed.

Lemma request_of_address c w token file :
  url (request_of E c w token file) = address_of E c w.
Proof. now destruct c. Qed.

(** X1: no operation tries twice.  The requests of one call are at most one
    token request, with the credentials of the client, followed by at most one
    request, which is the request of the operation itself: the one to the
    address of the operation, made with the token that [get_bearer_token]
    returned and, for an upload, the file that was opened.  So a call sends at
    most two requests. *)
Theorem X1_operations_send_one_exchange :
  forall (c : call) (self : NovaESDH) (w : World),
    one_exchange E c self w (issued w (world_after (perform E c self w)))
    /\ (forall token file,
          url (request_of E c w token file) = address_of E c w
          /\ url (request_of E c w token file) <> token_url)
    /\ (List.length (issued w (world_after (perform E c self w))) <= 2)%nat.
Proof.
  intros c self w.
  assert (Hex : one_exchange E c self w (issued w (world_after (perform E c self w)))).
  { destruct (accepted c) eqn:Haccepted.
    - rewrite (perform_issued c self w Haccepted), <- (issued_entry c w).
      eexists. eexists. split; [reflexivity |]. split.
      + destruct (get_bearer_token_issued E self (entry c w))
          as [-> | (_ & id & secret & Hid & Hsecret & ->)]; [now left |].
        right. now exists id, secret.
      + unfold own_request.
        destruct (outcome (get_bearer_token E self (entry c w))) as [token | e];
          [| now left].
        destruct (prepared E c) as [file | e]; [| now left].
        right. now exists token, file.
    - destruct (perform_rejected E c self w Haccepted) as [-> _].
      rewrite issued_refl. exists [], []. split; [reflexivity |]. split; now left. }
  split; [exact Hex |].
  split; [intros token file; split;
          [apply request_of_address | apply request_of_not_token] |].
  destruct Hex as (tokens & own & -> & Htokens & Hown).
  rewrite length_app.
  destruct Htokens as [-> | (id & secret & _ & _ & ->)];
    destruct Hown as [-> | (token & file & _ & _ & ->)]; cbn; lia.
Qed.

End Exchange.

Section Requests.

Variable E : Env.

(** Construction sends the token request, whatever comes of it. *)
Lemma new_issued id secret w :
  issued w (snd (new E id secret w)) = [token_request id secret].
Proof.
  unfold new, __init__, _get_new_token, requests_post, send. mstep.
  cbn [client_id client_secret blank].
  fold (token_request id secret).
  destruct (respond E (sent w) (token_request id secret)) as [response |];
    [| now apply issued_app].
  destruct (raise_for_status response); [| now apply issued_app].
  destruct (json_of response) as [j |]; [| now apply issued_app].
  destruct (subscript j "access_token"); [| now apply issued_app].
  destruct (subscript j "expires_in") as [v |]; [| now apply issued_app].
  destruct (int (int_of_str E) v) as [n |]; [| now apply issued_app].
  destruct (timedelta n) as [d |]; [| now apply issued_app].
  destruct (datetime_add (now E (ticks (log (token_request id secret) w))) d);
    now apply issued_app.
Qed.

(** X2: the constructor issues exactly one request, its token request,
    however the exchange ends; and every request the client issues, in
    construction and in each of the six operations, carries the timeout of
    60 seconds. *)
Theorem X2_every_request_has_the_timeout :
  forall (id secret : string) (c : call) (self : NovaESDH) (w : World),
    issued w (snd (new E id secret w)) = [token_request id secret]
    /\ Forall (fun r => timeout r = 60) (issued w (snd (new E id secret w)))
    /\ Forall (fun r => timeout r = 60) (issued w (world_after (perform E c self w))).
Proof.
  intros id secret c self w. split; [apply new_issued |]. split.
  - rewrite new_issued. now repeat constructor.
  - destruct (accepted c) eqn:Haccepted.
    + rewrite (perform_issued E c self w Haccepted). apply Forall_app. split.
      * rewrite <- (issued_entry c w).
        destruct (get_bearer_token_issued E self (entry c w))
          as [-> | (_ & id' & secret' & _ & _ & ->)]; now repeat constructor.
      * unfold own_request.
        destruct (outcome (get_bearer_token E self (entry c w))); [| constructor].
        destruct (prepared E c); repeat constructor. apply request_of_timeout.
    + destruct (perform_rejected E c self w Haccepted) as [-> _].
      rewrite issued_refl. constructor.
Qed.

(** X3: every request of an operation other than the token request carries
    the header [Authorization: Bearer <token>] with the token that
    [get_bearer_token] returned in this call (the renewed one after a
    refresh); the token request carries the credentials in its form body and
    no [Authorization] header. *)
Theorem X3_requests_carry_the_returned_token :
  forall (c : call) (self : NovaESDH) (w : World),
    Forall (fun r =>
              (exists id secret,
                  r = token_request id secret
                  /\ headers r = [("Content-Type", Plain "application/x-www-form-urlencoded")]
                  /\ payload r
                     = Data ("client_secret=" ++ secret
                             ++ "&grant_type=client_credentials&client_id=" ++ id
                             ++ "&scope=client"))
              \/ (exists token,
                     outcome (get_bearer_token E self (entry c w)) = Ok token
                     /\ In ("Authorization", Bearer token) (headers r)))
      (issued w (world_after (perform E c self w))).
Proof.
  intros c self w. destruct (accepted c) eqn:Haccepted.
  - rewrite (perform_issued E c self w Haccepted). apply Forall_app. split.
    + rewrite <- (issued_entry c w).
      destruct (get_bearer_token_issued E self (entry c w))
        as [-> | (_ & id & secret & _ & _ & ->)]; [constructor |].
      constructor; [| constructor]. left. now exists id, secret.
    + unfold own_request.
      destruct (outcome (get_bearer_token E self (entry c w))) as [token | e];
        [| constructor].
      destruct (prepared E c) as [file | e]; constructor; [| constructor].
      right. exists token. split; [reflexivity | apply request_of_authorized].
  - destruct (perform_rejected E c self w Haccepted) as [-> _].
    rewrite issued_refl. constructor.
Qed.

End Requests.



(** X5: when [get_bearer_token] raises, the operation raises the same
    exception, sends nothing of its own (only what [get_bearer_token] sent
    is in the log) and leaves the client as it was: a failed renewal keeps the
    old token and expiry. *)
Theorem X5_token_failure_aborts_the_operation :
  forall (E : Env) (c : call) (self : NovaESDH) (w : World) (e : exn),
    accepted c = true ->
    outcome (get_bearer_token E self (entry c w)) = Raise e ->
    outcome (perform E c self w) = Raise e
    /\ self_after (perform E c self w) = self
    /\ world_after (perform E c self w)
       = world_after (get_bearer_token E self (entry c w))
    /\ Forall (fun r => url r = token_url) (issued w (world_after (perform E c self w))).
Proof.
  intros E c self w e Haccepted Hraise.
  pose proof (get_bearer_token_raise_keeps E self (entry c w) e Hraise) as Hself.
  assert (Hall : Forall (fun r => url r = token_url)
                   (issued w (world_after (get_bearer_token E self (entry c w))))).
  { rewrite <- (issued_entry c w).
    destruct (get_bearer_token_issued E self (entry c w))
      as [-> | (_ & id & secret & _ & _ & ->)]; now repeat constructor. }
  rewrite (perform_guarded E c self w Haccepted), guarded_call_eq.
  destruct (get_bearer_token E self (entry c w)) as [[[token | e'] self1] w1]; mstep;
    [discriminate |].
  now injection Hraise as ->.
Qed.

(** An attach call with an expired token while the token endpoint answers
    500. *)
Lemma X5_attach_with_failing_renewal :
  outcome (attach_document_to_case (Sample.env 500 3600 JNull) "c-1" Sample.letter
             None None (Sample.client (-40 * MICROSECOND)) Sample.start)
  = Raise (HTTPError 500)
  /\ self_after (attach_document_to_case (Sample.env 500 3600 JNull) "c-1" Sample.letter
                   None None (Sample.client (-40 * MICROSECOND)) Sample.start)
     = Sample.client (-40 * MICROSECOND).
Proof.
  pose proof (X5_token_failure_aborts_the_operation (Sample.env 500 3600 JNull)
                (Attach "c-1" Sample.letter None None)
                (Sample.client (-40 * MICROSECOND)) Sample.start (HTTPError 500)
                eq_refl eq_refl) as (Hout & Hself & _).
  split; [exact Hout | exact Hself].
Defined.

(** X6: an operation returns a value only from an answer without error
    status.  If a call returns, it was accepted, the token was obtained, what
    it needed was prepared, its request was answered with a status that is
    not a client or server error, and the value is what the operation makes of
    that answer. *)
Theorem X6_values_come_from_successful_answers :
  forall (E : Env) (c : call) (self : NovaESDH) (w : World) (v : returns c),
    outcome (perform E c self w) = Ok v ->
    accepted c = true
    /\ exists token self1 w1 file response,
         get_bearer_token E self (entry c w) = (Ok token, self1, w1)
         /\ prepared E c = Ok file
         /\ respond E (sent w1) (request_of E c w token file) = Some response
         /\ ok response = true
         /\ digest_of E c w response = Ok v
         /\ perform E c self w = (Ok v, self1, log (request_of E c w token file) w1).
Proof.
  intros E c self w v Hv.
  assert (Haccepted : accepted c = true).
  { destruct (accepted c) eqn:Haccepted; [reflexivity |].
    destruct c; try discriminate. cbn [accepted perform] in *.
    rewrite (get_cases_rejected E _ _ _ _ _ Haccepted) in Hv. discriminate. }
  split; [exact Haccepted |].
  rewrite (perform_guarded E c self w Haccepted), guarded_call_eq in *.
  destruct (get_bearer_token E self (entry c w)) as [[[token | e] self1] w1];
    [| discriminate].
  destruct (prepared E c) as [file | e]; [| discriminate].
  destruct (respond E (sent w1) (request_of E c w token file)) as [response |] eqn:Hr;
    [| discriminate].
  unfold outcome in Hv. cbn [fst] in Hv.
  exists token, self1, w1, file, response.
  repeat split; try assumption.
  - now apply (digest_of_Ok E c w response v).
  - now rewrite Hv.
Qed.

(** The sample address lookup returns the body of a 200 answer. *)
Lemma X6_address_lookup_returned :
  accepted (Address "0101011111") = true
  /\ exists token self1 w1 file response,
       get_bearer_token Scenario.address_server (Sample.client (100 * MICROSECOND))
         (entry (Address "0101011111") Sample.start) = (Ok token, self1, w1)
       /\ prepared Scenario.address_server (Address "0101011111") = Ok file
       /\ respond Scenario.address_server (sent w1)
            (request_of Scenario.address_server (Address "0101011111") Sample.start
               token file) = Some response
       /\ ok response = true
       /\ digest_of Scenario.address_server (Address "0101011111") Sample.start response
          = Ok Scenario.address
       /\ perform Scenario.address_server (Address "0101011111")
            (Sample.client (100 * MICROSECOND)) Sample.start
          = (Ok Scenario.address, self1,
             log (request_of Scenario.address_server (Address "0101011111") Sample.start
                    token file) w1).
Proof.
  apply (X6_values_come_from_successful_answers Scenario.address_server
           (Address "0101011111") (Sample.client (100 * MICROSECOND)) Sample.start
           Scenario.address).
  reflexivity.
Defined.

(** X7: every accepted call draws its own uuids, one for the transaction
    (and a second one for the document of an upload), also when it fails
    later; a rejected case search draws none.  So the uuid positions of two
    calls in a row never overlap. *)
Theorem X7_every_call_draws_its_uuids :
  forall (E : Env) (c : call) (self : NovaESDH) (w : World),
    draws (world_after (perform E c self w))
    = (draws w + if accepted c then uuids c else 0)%nat.
Proof.
  intros E c self w. destruct (accepted c) eqn:Haccepted.
  - rewrite (perform_guarded E c self w Haccepted).
    destruct (guarded_call_self E (prepared E c) (request_of E c w) (digest_of E c w)
                self (entry c w)) as [_ ->].
    destruct c; cbn; lia.
  - destruct (perform_rejected E c self w Haccepted) as [-> _]. lia.
Qed.

(** *** The life of a token *)

Lemma timedelta_in_range n :
  - TIMEDELTA_MAX_DAYS <= n / 86400 <= TIMEDELTA_MAX_DAYS ->
  timedelta n = Ok (n * MICROSECOND).
Proof.
  intros [Hlo Hhi]. unfold timedelta.
  destruct (Z.leb_spec (- TIMEDELTA_MAX_DAYS) (n / 86400)); [| lia].
  destruct (Z.leb_spec (n / 86400) TIMEDELTA_MAX_DAYS); [reflexivity | lia].
Qed.

Lemma datetime_add_valid t delta r :
  datetime_add t delta = Ok r -> r = t + delta /\ valid_datetime r.
Proof.
  unfold datetime_add, valid_datetime.
  destruct (Z.leb_spec 0 (t + delta)); [| discriminate].
  destruct (Z.leb_spec (t + delta) DATETIME_MAX); [| discriminate].
  intros [= <-]. auto.
Qed.

(** The expiry that [_get_new_token] returns is a [datetime]. *)
Lemma get_new_token_valid (E : Env) self w token expiry self' w' :
  _get_new_token E self w = (Ok (token, expiry), self', w') ->
  valid_datetime expiry.
Proof.
  unfold _get_new_token, requests_post, send. mstep.
  destruct (client_secret self) as [secret |]; [| discriminate].
  destruct (client_id self) as [id |]; [| discriminate].
  destruct (respond E (sent w) _) as [response |]; [| discriminate].
  destruct (raise_for_status response); [| discriminate].
  destruct (json_of response) as [j |]; [| discriminate].
  destruct (subscript j "access_token"); [| discriminate].
  destruct (subscript j "expires_in") as [v |]; [| discriminate].
  destruct (int (int_of_str E) v) as [n |]; [| discriminate].
  destruct (timedelta n) as [d |]; [| discriminate].
  destruct (datetime_add _ d) as [r |] eqn:Hadd; [| discriminate].
  intros [= _ <- _ _]. now apply datetime_add_valid in Hadd.
Qed.

(** X8: a due refresh that is granted.  When the clock has passed the
    stored expiry by more than 30 seconds and the token endpoint answers with
    a token and a lifetime of [n] seconds that [timedelta] and [datetime] can
    hold, [get_bearer_token] sends the one token request, returns the new
    token and stores it with the expiry [n] seconds after its second clock
    reading; the credentials stay. *)
Theorem X8_granted_refresh_replaces_the_token :
  forall (E : Env) (self : NovaESDH) (w : World) (id secret : string)
         (expiry : datetime) (response : Response) (j token : json) (n : Z),
    client_id self = Some id ->
    client_secret self = Some secret ->
    token_expiry_date self = Some expiry ->
    0 <= expiry + THIRTY_SECONDS <= DATETIME_MAX ->
    expiry + THIRTY_SECONDS < now E (ticks w) ->
    respond E (sent w) (token_request id secret) = Some response ->
    ok response = true ->
    parsed response = Some j ->
    subscript j "access_token" = Ok token ->
    subscript j "expires_in" = Ok (JInt n) ->
    - TIMEDELTA_MAX_DAYS <= n / 86400 <= TIMEDELTA_MAX_DAYS ->
    0 <= now E (S (ticks w)) + n * MICROSECOND <= DATETIME_MAX ->
    get_bearer_token E self w
    = (Ok token,
       with_token self token (now E (S (ticks w)) + n * MICROSECOND),
       tick (log (token_request id secret) (tick w))).
Proof.
  intros E self w id secret expiry response j token n
         Hid Hsecret Hexpiry Hrange Hdue Hrespond Hok Hparsed Htoken Hlife Hdays Hnew.
  assert (Hrefresh : refresh_due self (now E (ticks w)) = true).
  { unfold refresh_due. rewrite Hexpiry, (datetime_add_in_range _ _ Hrange).
    now apply Z.ltb_lt. }
  rewrite (get_bearer_token_refresh E self w Hrefresh).
  now rewrite (get_new_token_ok E self (tick w) id secret response j token (JInt n) n
                 (n * MICROSECOND) (now E (S (ticks w)) + n * MICROSECOND)
                 Hid Hsecret Hrespond Hok Hparsed Htoken Hlife eq_refl
                 (timedelta_in_range n Hdays) (datetime_add_in_range _ _ Hnew)).
Qed.

(** A token that ran out 40 seconds ago is replaced by one for an hour. *)
Lemma X8_refresh_after_forty_seconds :
  get_bearer_token Sample.good (Sample.client (-40 * MICROSECOND)) Sample.start
  = (Ok (JStr "tok-new"),
     with_token (Sample.client (-40 * MICROSECOND)) (JStr "tok-new")
       (now Sample.good 1 + 3600 * MICROSECOND),
     tick (log (token_request "id" "secret") (tick Sample.start))).
Proof.
  apply (X8_granted_refresh_replaces_the_token Sample.good
           (Sample.client (-40 * MICROSECOND)) Sample.start "id" "secret"
           (Sample.T0 + -40 * MICROSECOND)
           {| status_code := 200; content := [];
              parsed := Some (Sample.token_body 3600) |}
           (Sample.token_body 3600) (JStr "tok-new") 3600);
    try reflexivity; split; discriminate.
Defined.

Lemma sent_entry c w : sent (entry c w) = sent w.
Proof. now destruct c. Qed.



(** [__init__] is the two assignments, [_get_new_token] on the half-built
    object and the assignment of its pair. *)
Lemma init_eq (E : Env) id secret w :
  __init__ E id secret blank w
  = match _get_new_token E
            {| client_id := Some id; client_secret := Some secret;
               _bearer_token := None; token_expiry_date := None |} w with
    | (Ok p, self', w') => (Ok tt, with_token self' (fst p) (snd p), w')
    | (Raise e, self', w') => (Raise e, self', w')
    end.
Proof.
  unfold __init__. mstep.
  cbn [client_id client_secret _bearer_token token_expiry_date blank].
  now destruct (_get_new_token E _ w) as [[[p | e] self'] w'].
Qed.

Lemma get_bearer_token_constructed (E : Env) self w :
  constructed self -> constructed (self_after (get_bearer_token E self w)).
Proof.
  intros Hc.
  destruct (refresh_due self (now E (ticks w))) eqn:Hdue.
  - rewrite (get_bearer_token_refresh E self w Hdue).
    destruct (get_new_token_frame E self (tick w)) as (Hself & _ & _).
    destruct (_get_new_token E self (tick w)) as [[[[token expiry] | e] self'] w']
      eqn:Hnew; mstep; subst self'; [| exact Hc].
    destruct Hc as (Hid & Hsecret & _ & _).
    split; [exact Hid |]. split; [exact Hsecret |].
    split; [now exists token |]. exists expiry. split; [reflexivity |].
    exact (get_new_token_valid E _ _ _ _ _ _ Hnew).
  - destruct (get_bearer_token_frame E self w)
      as (_ & _ & [-> | (Hdue' & _)]); [exact Hc | congruence].
Qed.

(** X10: the constructor hands out only clients with all four attributes
    assigned, the credentials being its arguments and the expiry a
    [datetime]; and each of the six operations, however it ends, leaves such a
    client in that state. *)
Theorem X10_clients_stay_constructed :
  forall E : Env,
    (forall id secret w self w1,
        new E id secret w = (Ok self, w1) ->
        constructed self
        /\ client_id self = Some id /\ client_secret self = Some secret)
    /\ (forall c self w,
          constructed self -> constructed (self_after (perform E c self w))).
Proof.
  intros E. split.
  - intros id secret w self w1. unfold new. rewrite init_eq.
    destruct (get_new_token_frame E
                {| client_id := Some id; client_secret := Some secret;
                   _bearer_token := None; token_expiry_date := None |} w)
      as (Hself & _ & _).
    destruct (_get_new_token E _ w) as [[[[token expiry] | e] self'] w'] eqn:Hnew;
      [| discriminate].
    mstep. subst self'. intros [= <- <-].
    split; [| now split].
    split; [now exists id |]. split; [now exists secret |].
    split; [now exists token |]. exists expiry. split; [reflexivity |].
    exact (get_new_token_valid E _ _ _ _ _ _ Hnew).
  - intros c self w Hc. destruct (accepted c) eqn:Haccepted.
    + rewrite (perform_guarded E c self w Haccepted).
      destruct (guarded_call_self E (prepared E c) (request_of E c w) (digest_of E c w)
                  self (entry c w)) as [-> _].
      now apply get_bearer_token_constructed.
    + now destruct (perform_rejected E c self w Haccepted) as [_ ->].
Qed.

(** The client that the sample construction hands out. *)
Lemma X10_sample_client_is_constructed :
  constructed (with_token
                 {| client_id := Some "id"; client_secret := Some "secret";
                    _bearer_token := None; token_expiry_date := None |}
                 (JStr "tok-new") (Sample.T0 + 3600 * MICROSECOND)).
Proof.
  apply (proj1 (X10_clients_stay_constructed Sample.good) "id" "secret" Sample.start
           _ (tick (log (token_request "id" "secret") Sample.start))).
  reflexivity.
Defined.

(** X11: upload, then attach.  When an upload has returned an id and a
    document with that id as its uuid is attached with the client and the
    world the upload left, and [get_bearer_token] returns in the attach call,
    then the attach call sends exactly one attach request, whose body names
    that id as [common.uuid], the id that the upload request carried in its
    address. *)
Theorem X11_upload_then_attach :
  forall (E : Env) (document_path case_uuid : string) (document : NovaDocument.t)
         (unit_id : option Z) (unit_name : option string)
         (self self1 : NovaESDH) (w w1 : World) (id : string) (token : json),
    upload_document E document_path self w = (Ok id, self1, w1) ->
    NovaDocument.uuid document = JStr id ->
    outcome (get_bearer_token E self1 (tick (draw w1))) = Ok token ->
    (exists upload_token file,
        upload_requests E document_path self w
        = [upload_request E upload_token (uuid4 E (draws w)) id document_path file])
    /\ (exists r body,
          attach_requests E case_uuid document unit_id unit_name self1 w1 = [r]
          /\ payload r = JsonData body
          /\ subscript2 body "common" "uuid" = Ok (JStr id)
          /\ subscript body "caseUuid" = Ok (JStr case_uuid)).
Proof.
  intros E document_path case_uuid document unit_id unit_name self self1 w w1 id token
         Hupload Huuid Htoken.
  split.
  - assert (Hid : outcome (upload_document E document_path self w) = Ok id)
      by now rewrite Hupload.
    destruct (upload_document_Ok E document_path self w id Hid)
      as (-> & upload_token & file & Hupload_token & Hfile).
    exists upload_token, file.
    now rewrite upload_requests_own, Hupload_token, Hfile.
  - rewrite attach_requests_own, Htoken.
    eexists. eexists. split; [reflexivity |]. split; [reflexivity |].
    split; [| reflexivity].
    cbn. now rewrite Huuid.
Qed.

(** The sample upload followed by the attachment of the sample letter, whose
    uuid is the id the upload returns. *)
Lemma X11_sample_upload_then_attach :
  (exists upload_token file,
      upload_requests Sample.good "brev.pdf" (Sample.client (100 * MICROSECOND)) Sample.start
      = [upload_request Sample.good upload_token (uuid4 Sample.good 0) "uuid-1"
           "brev.pdf" file])
  /\ (exists r body,
        attach_requests Sample.good "c-1" Sample.letter None None
          (Sample.client (100 * MICROSECOND))
          (world_after (upload_document Sample.good "brev.pdf"
                          (Sample.client (100 * MICROSECOND)) Sample.start)) = [r]
        /\ payload r = JsonData body
        /\ subscript2 body "common" "uuid" = Ok (JStr "uuid-1")
        /\ subscript body "caseUuid" = Ok (JStr "c-1")).
Proof.
  apply (X11_upload_then_attach Sample.good "brev.pdf" "c-1" Sample.letter None None
           (Sample.client (100 * MICROSECOND)) (Sample.client (100 * MICROSECOND))
           Sample.start _ "uuid-1" (JStr "tok-old"));
    reflexivity.
Defined.

Lemma has_key_missing kvs k : has_key (JDict kvs) k = false -> dict_lookup kvs k = None.
Proof. cbn. now destruct (dict_lookup kvs k). Qed.

(** X12: a token answer with a success status that does not have the
    expected content makes the constructor raise, after its one request and
    without handing out a client: [JSONDecodeError] when the body is not
    JSON, [KeyError] for [access_token] when the object lacks it,
    [KeyError] for [expires_in] when only that is missing, and
    [TypeError], after the clock has been read, when [expires_in] is
    null. *)
Theorem X12_malformed_token_answers :
  forall (E : Env) (id secret : string) (w : World) (response : Response),
    respond E (sent w) (token_request id secret) = Some response ->
    ok response = true ->
    (parsed response = None ->
       new E id secret w = (Raise JSONDecodeError, log (token_request id secret) w))
    /\ (forall j,
          parsed response = Some j -> is_dict j = true ->
          has_key j "access_token" = false ->
          new E id secret w
          = (Raise (KeyError "access_token"), log (token_request id secret) w))
    /\ (forall j,
          parsed response = Some j ->
          has_key j "access_token" = true -> has_key j "expires_in" = false ->
          new E id secret w
          = (Raise (KeyError "expires_in"), log (token_request id secret) w))
    /\ (forall j token,
          parsed response = Some j ->
          subscript j "access_token" = Ok token ->
          subscript j "expires_in" = Ok JNull ->
          new E id secret w
          = (Raise TypeError, tick (log (token_request id secret) w))).
Proof.
  intros E id secret w response Hrespond Hok.
  assert (Hnew : new E id secret w
                 = match _get_new_token E
                           {| client_id := Some id; client_secret := Some secret;
                              _bearer_token := None; token_expiry_date := None |} w with
                   | (Ok p, self', w') => (Ok (with_token self' (fst p) (snd p)), w')
                   | (Raise e, _, w') => (Raise e, w')
                   end).
  { unfold new. rewrite init_eq. now destruct (_get_new_token E _ w) as [[[p | e] ?] ?]. }
  rewrite Hnew. unfold _get_new_token, requests_post, send. mstep.
  cbn [client_id client_secret]. fold (token_request id secret).
  rewrite Hrespond, (raise_for_status_ok _ Hok). unfold json_of.
  split; [| split; [| split]].
  - now intros ->.
  - intros j -> Hdict Hmissing. destruct j; try discriminate.
    cbn [subscript]. now rewrite (has_key_missing _ _ Hmissing).
  - intros j -> Htoken Hlife. destruct j; try discriminate.
    cbn [subscript has_key] in *.
    destruct (dict_lookup kvs "access_token"); [| discriminate].
    now destruct (dict_lookup kvs "expires_in").
  - intros j token -> Htoken Hlife. now rewrite Htoken, Hlife.
Qed.

(** A token endpoint that answers 200 with an empty object. *)
Lemma X12_empty_token_object :
  new (Scenario.env (Scenario.answer 200 [] (Some (JDict []))) None) "id" "secret"
    Sample.start
  = (Raise (KeyError "access_token"), log (token_request "id" "secret") Sample.start).
Proof.
  apply (X12_malformed_token_answers
           (Scenario.env (Scenario.answer 200 [] (Some (JDict []))) None)
           "id" "secret" Sample.start
           {| status_code := 200; content := []; parsed := Some (JDict []) |}
           eq_refl eq_refl)
    with (j := JDict []);
    reflexivity.
Defined.

(** X13: the lifetime is not checked.  A token answer with a lifetime of
    zero or fewer seconds (that the date types can hold) is accepted like any
    other: the constructor hands out a client whose stored expiry is not
    after the clock reading of its construction. *)
Theorem X13_nonpositive_lifetime_is_accepted :
  forall (E : Env) (id secret : string) (w : World) (response : Response)
         (j token : json) (n : Z),
    respond E (sent w) (token_request id secret) = Some response ->
    ok response = true ->
    parsed response = Some j ->
    subscript j "access_token" = Ok token ->
    subscript j "expires_in" = Ok (JInt n) ->
    n <= 0 ->
    - TIMEDELTA_MAX_DAYS <= n / 86400 ->
    0 <= now E (ticks w) + n * MICROSECOND ->
    now E (ticks w) <= DATETIME_MAX ->
    new E id secret w
    = (Ok {| client_id := Some id; client_secret := Some secret;
             _bearer_token := Some token;
             token_expiry_date := Some (now E (ticks w) + n * MICROSECOND) |},
       tick (log (token_request id secret) w))
    /\ now E (ticks w) + n * MICROSECOND <= now E (ticks w).
Proof.
  intros E id secret w response j token n
         Hrespond Hok Hparsed Htoken Hlife Hn Hdays Hlow Hhigh.
  assert (Hdiv : n / 86400 <= 0) by (apply Z.div_le_upper_bound; lia).
  assert (Hrange : 0 <= now E (ticks w) + n * MICROSECOND <= DATETIME_MAX)
    by (unfold MICROSECOND in *; lia).
  split; [| unfold MICROSECOND; lia].
  assert (Hdelta : - TIMEDELTA_MAX_DAYS <= n / 86400 <= TIMEDELTA_MAX_DAYS)
    by (unfold TIMEDELTA_MAX_DAYS in *; lia).
  unfold new. rewrite init_eq.
  rewrite (get_new_token_ok E
             {| client_id := Some id; client_secret := Some secret;
                _bearer_token := None; token_expiry_date := None |}
             w id secret response j token (JInt n) n
             (n * MICROSECOND) (now E (ticks w) + n * MICROSECOND)
             eq_refl eq_refl Hrespond Hok Hparsed Htoken Hlife eq_refl
             (timedelta_in_range n Hdelta) (datetime_add_in_range _ _ Hrange)).
  reflexivity.
Qed.

(** A token endpoint that grants zero seconds. *)
Lemma X13_zero_lifetime :
  new (Scenario.env (Scenario.grant 0) None) "id" "secret" Sample.start
  = (Ok {| client_id := Some "id"; client_secret := Some "secret";
           _bearer_token := Some (JStr "tok-new");
           token_expiry_date := Some (now (Scenario.env (Scenario.grant 0) None) 0
                                      + 0 * MICROSECOND) |},
     tick (log (token_request "id" "secret") Sample.start))
  /\ now (Scenario.env (Scenario.grant 0) None) 0 + 0 * MICROSECOND
     <= now (Scenario.env (Scenario.grant 0) None) 0.
Proof.
  apply (X13_nonpositive_lifetime_is_accepted (Scenario.env (Scenario.grant 0) None)
           "id" "secret" Sample.start
           {| status_code := 200; content := []; parsed := Some (Sample.token_body 0) |}
           (Sample.token_body 0) (JStr "tok-new") 0);
    try reflexivity; discriminate.
Defined.

(** *** More on the conversion loops *)

(** The loop raises what the first element that does not convert raises;
    the elements after it are not looked at. *)
Lemma for_each_first_Raise {A B} (f : A -> result B) before x after e :
  Forall (fun y => exists v, f y = Ok v) before ->
  f x = Raise e ->
  for_each f (before ++ x :: after) = Raise e.
Proof.
  intros Hbefore Hx. induction Hbefore as [| y ys [v Hy] _ IH]; cbn.
  - now rewrite Hx.
  - now rewrite Hy, IH.
Qed.

Lemma document_of_first_missing kvs k :
  first_missing (JDict kvs) = Some k ->
  document_of (JDict kvs) = Raise (KeyError k).
Proof.
  unfold first_missing, document_of, required_document_fields.
  cbn [find has_key bind ret Monad_result result_bind subscript dict_get].
  repeat match goal with
  | |- context [dict_lookup kvs ?key] =>
      destruct (dict_lookup kvs key);
      cbn [negb bind ret Monad_result result_bind];
      try solve [intros [= <-]; reflexivity]
  end;
  discriminate.
Qed.

(** X14: the [KeyError] of a document list names the first missing
    required field, in the order [documentUuid], [title], [sensitivity],
    [documentType], [approved], [documentDate], [fileExtension], of the first
    document that lacks one; what follows that document in the list is not
    read, whatever it is. *)
Theorem X14_first_missing_field_is_reported :
  forall (E : Env) (case_uuid : string) (self self1 : NovaESDH) (w w1 : World)
         (token : json) (response : Response) (j : json)
         (before after : list json) (document_dict : json) (k : string),
    get_bearer_token E self (draw w) = (Ok token, self1, w1) ->
    respond E (sent w1) (documents_request token (uuid4 E (draws w)) case_uuid)
    = Some response ->
    ok response = true ->
    parsed response = Some j ->
    subscript j "documents" = Ok (JList (before ++ document_dict :: after)) ->
    forallb is_dict before = true ->
    forallb complete_document before = true ->
    is_dict document_dict = true ->
    first_missing document_dict = Some k ->
    outcome (get_documents E case_uuid self w) = Raise (KeyError k).
Proof.
  intros E case_uuid self self1 w w1 token response j before after document_dict k
         Htoken Hrespond Hok Hparsed Hdocs Hdicts Hcomplete Hdict Hmissing.
  rewrite get_documents_guarded.
  rewrite (guarded_call_answer E _ _ _ _ _ _ _ _ tt _ Htoken eq_refl Hrespond).
  unfold outcome, documents_of, json_of. cbn [fst bind Monad_result result_bind].
  rewrite (raise_for_status_ok _ Hok), Hparsed.
  cbn [bind Monad_result result_bind]. rewrite Hdocs.
  cbn [bind Monad_result result_bind iterate].
  apply for_each_first_Raise.
  - rewrite forallb_forall in Hdicts, Hcomplete. apply Forall_forall.
    intros d Hin. specialize (Hdicts d Hin). specialize (Hcomplete d Hin).
    destruct d; try discriminate.
    pose proof (document_of_dict kvs) as H.
    destruct (document_of (JDict kvs)) as [document | e]; [now exists document |].
    destruct H as [H _]. congruence.
  - destruct document_dict; try discriminate.
    now apply document_of_first_missing.
Qed.

(** The second document of the sample list lacks [sensitivity] and
    [approved], and a number follows it. *)
Lemma X14_second_document_lacks_sensitivity :
  outcome (get_documents
             (Scenario.env (Scenario.grant 3600)
                (Scenario.answer 200 [] (Some Scenario.second_document_incomplete)))
             "c-1" (Sample.client (100 * MICROSECOND)) Sample.start)
  = Raise (KeyError "sensitivity").
Proof.
  apply (X14_first_missing_field_is_reported
           (Scenario.env (Scenario.grant 3600)
              (Scenario.answer 200 [] (Some Scenario.second_document_incomplete)))
           "c-1" (Sample.client (100 * MICROSECOND)) (Sample.client (100 * MICROSECOND))
           Sample.start (tick (draw Sample.start)) (JStr "tok-old")
           {| status_code := 200; content := [];
              parsed := Some Scenario.second_document_incomplete |}
           Scenario.second_document_incomplete
           match Scenario.second_document_incomplete with
           | JDict [(_, JList (first :: _))] => [first]
           | _ => []
           end
           []
           match Scenario.second_document_incomplete with
           | JDict [(_, JList [_; second])] => second
           | _ => JNull
           end
           "sensitivity");
    reflexivity.
Defined.

Lemma document_of_copies document_dict document :
  document_of document_dict = Ok document -> copies_document document_dict document.
Proof.
  unfold document_of, copies_document. cbn [bind ret Monad_result result_bind].
  destruct (subscript document_dict "documentUuid"); [| discriminate].
  destruct (subscript document_dict "title"); [| discriminate].
  destruct (subscript document_dict "sensitivity"); [| discriminate].
  destruct (subscript document_dict "documentType"); [| discriminate].
  destruct (dict_get document_dict "description" JNull); [| discriminate].
  destruct (subscript document_dict "approved"); [| discriminate].
  destruct (subscript document_dict "documentDate"); [| discriminate].
  destruct (subscript document_dict "fileExtension"); [| discriminate].
  intros [= <-]. now repeat split.
Qed.

Lemma case_of_copies case_dict case :
  case_of case_dict = Ok case -> copies_case case_dict case.
Proof.
  unfold case_of, copies_case. cbn [bind ret Monad_result result_bind].
  destruct (subscript case_dict "caseParties") as [case_parties |] eqn:Hsub;
    [| discriminate].
  cbn [bind ret Monad_result result_bind].
  destruct (iterate case_parties) as [party_dicts |] eqn:Hiter; [| discriminate].
  cbn [bind ret Monad_result result_bind].
  destruct (for_each party_of party_dicts) as [parties |] eqn:Hparties; [| discriminate].
  cbn [bind ret Monad_result result_bind].
  destruct (subscript2 case_dict "common" "uuid"); [| discriminate].
  destruct (subscript2 case_dict "caseAttributes" "title"); [| discriminate].
  destruct (subscript2 case_dict "caseAttributes" "caseDate"); [| discriminate].
  destruct (subscript2 case_dict "caseAttributes" "userFriendlyCaseNumber");
    [| discriminate].
  destruct (subscript2 case_dict "state" "activeCode"); [| discriminate].
  destruct (subscript2 case_dict "state" "progressState"); [| discriminate].
  intros [= <-]. cbn.
  do 6 (split; [reflexivity |]).
  exists case_parties, party_dicts.
  split; [reflexivity |]. split; [exact Hiter |].
  apply for_each_Ok in Hparties.
  eapply Forall2_impl; [| exact Hparties]. apply party_of_maps.
Qed.

(** What a guarded call that returns has been through. *)
Lemma guarded_call_Ok (E : Env) {A B} (prepare : result B)
    (request : json -> B -> Request) (digest : Response -> result A) self w v :
  outcome (guarded_call E prepare request digest self w) = Ok v ->
  exists token self1 w1 b response,
    get_bearer_token E self w = (Ok token, self1, w1)
    /\ prepare = Ok b
    /\ respond E (sent w1) (request token b) = Some response
    /\ digest response = Ok v.
Proof.
  rewrite guarded_call_eq.
  destruct (get_bearer_token E self w) as [[[token | e] self1] w1]; [| discriminate].
  destruct prepare as [b | e]; [| discriminate].
  destruct (respond E (sent w1) (request token b)) as [response |] eqn:Hrespond;
    [| discriminate].
  unfold outcome. cbn [fst]. intros Hv.
  now exists token, self1, w1, b, response.
Qed.

Lemma raise_for_status_Ok response u :
  raise_for_status response = Ok u -> ok response = true.
Proof.
  destruct (ok response) eqn:Hok; [reflexivity |].
  now rewrite (raise_for_status_error _ Hok).
Qed.

(** X15: what [get_documents] returns is a copy of the answer.  If the
    call returns a list, its request was answered without error status by a
    JSON body whose [documents] were iterated, and the list has one
    [NovaDocument] per item, in order, whose eight fields are the values
    under [documentUuid], [title], [sensitivity], [documentType],
    [description] (or [None]), [approved], [documentDate] and
    [fileExtension] of that item. *)
Theorem X15_documents_are_copied_field_by_field :
  forall (E : Env) (case_uuid : string) (self : NovaESDH) (w : World)
         (documents : list NovaDocument.t),
    outcome (get_documents E case_uuid self w) = Ok documents ->
    exists token self1 w1 response j listed items,
      get_bearer_token E self (draw w) = (Ok token, self1, w1)
      /\ respond E (sent w1) (documents_request token (uuid4 E (draws w)) case_uuid)
         = Some response
      /\ ok response = true
      /\ parsed response = Some j
      /\ subscript j "documents" = Ok listed
      /\ iterate listed = Ok items
      /\ Forall2 copies_document items documents.
Proof.
  intros E case_uuid self w documents. rewrite get_documents_guarded. intros Hv.
  apply guarded_call_Ok in Hv.
  destruct Hv as (token & self1 & w1 & [] & response & Htoken & _ & Hrespond & Hdigest).
  cbn [bind Monad_result result_bind] in Hdigest.
  destruct (raise_for_status response) eqn:Hstatus; [| discriminate].
  unfold json_of in Hdigest. destruct (parsed response) as [j |] eqn:Hparsed;
    [| discriminate].
  unfold documents_of in Hdigest. cbn [bind Monad_result result_bind] in Hdigest.
  destruct (subscript j "documents") as [listed |] eqn:Hlisted; [| discriminate].
  cbn [bind Monad_result result_bind] in Hdigest.
  destruct (iterate listed) as [items |] eqn:Hitems; [| discriminate].
  cbn [bind Monad_result result_bind] in Hdigest.
  exists token, self1, w1, response, j, listed, items.
  repeat (split; [first [assumption | reflexivity
                        | now apply (raise_for_status_Ok _ _ Hstatus)] |]).
  apply for_each_Ok in Hdigest.
  eapply Forall2_impl; [| exact Hdigest]. apply document_of_copies.
Qed.

(** The sample document list. *)
Lemma X15_sample_documents_copied :
  exists token self1 w1 response j listed items,
    get_bearer_token Sample.good (Sample.client (100 * MICROSECOND)) (draw Sample.start)
    = (Ok token, self1, w1)
    /\ respond Sample.good (sent w1)
         (documents_request token (uuid4 Sample.good (draws Sample.start)) "c-1")
       = Some response
    /\ ok response = true
    /\ parsed response = Some j
    /\ subscript j "documents" = Ok listed
    /\ iterate listed = Ok items
    /\ Forall2 copies_document items
         [{| NovaDocument.uuid := JStr "d-1";
             NovaDocument.title := JStr "Brev";
             NovaDocument.sensitivity := JStr "Fortrolige";
             NovaDocument.document_type := JStr "Indgaaende";
             NovaDocument.description := JNull;
             NovaDocument.approved := JBool true;
             NovaDocument.document_date := JStr "2023-05-02T00:00:00";
             NovaDocument.file_extension := JStr "pdf" |}].
Proof.
  apply (X15_documents_are_copied_field_by_field Sample.good "c-1"
           (Sample.client (100 * MICROSECOND)) Sample.start).
  reflexivity.
Defined.

(** X16: what [get_cases] returns is a copy of the answer.  If the call
    returns a list, its request was answered without error status by a JSON
    body whose [cases] were iterated, and the list has one [NovaCase] per
    item, in order, whose fields are the values under [common.uuid],
    [caseAttributes.title], [caseAttributes.caseDate],
    [caseAttributes.userFriendlyCaseNumber], [state.activeCode] and
    [state.progressState] of that item and whose parties are made, one to one
    and in order, of what iterating its [caseParties] yields. *)
Theorem X16_cases_are_copied_field_by_field :
  forall (E : Env) (cpr case_number case_title : option string)
         (self : NovaESDH) (w : World) (cases : list NovaCase.t),
    outcome (get_cases E cpr case_number case_title self w) = Ok cases ->
    any [truthy cpr; truthy case_number; truthy case_title] = true
    /\ exists token self1 w1 response j listed items,
         get_bearer_token E self (draw w) = (Ok token, self1, w1)
         /\ respond E (sent w1)
              (cases_request token (uuid4 E (draws w)) cpr case_number case_title)
            = Some response
         /\ ok response = true
         /\ parsed response = Some j
         /\ subscript j "cases" = Ok listed
         /\ iterate listed = Ok items
         /\ Forall2 copies_case items cases.
Proof.
  intros E cpr case_number case_title self w cases Hv.
  destruct (any [truthy cpr; truthy case_number; truthy case_title]) eqn:Hany.
  2:{ rewrite (get_cases_rejected E _ _ _ _ _ Hany) in Hv. discriminate. }
  split; [reflexivity |].
  rewrite (get_cases_guarded E _ _ _ _ _ Hany) in Hv.
  apply guarded_call_Ok in Hv.
  destruct Hv as (token & self1 & w1 & [] & response & Htoken & _ & Hrespond & Hdigest).
  cbn [bind Monad_result result_bind] in Hdigest.
  destruct (raise_for_status response) eqn:Hstatus; [| discriminate].
  unfold json_of in Hdigest. destruct (parsed response) as [j |] eqn:Hparsed;
    [| discriminate].
  unfold cases_of in Hdigest. cbn [bind Monad_result result_bind] in Hdigest.
  destruct (subscript j "cases") as [listed |] eqn:Hlisted; [| discriminate].
  cbn [bind Monad_result result_bind] in Hdigest.
  destruct (iterate listed) as [items |] eqn:Hitems; [| discriminate].
  cbn [bind Monad_result result_bind] in Hdigest.
  exists token, self1, w1, response, j, listed, items.
  repeat (split; [first [assumption | reflexivity
                        | now apply (raise_for_status_Ok _ _ Hstatus)] |]).
  apply for_each_Ok in Hdigest.
  eapply Forall2_impl; [| exact Hdigest]. apply case_of_copies.
Qed.

(** The sample case search. *)
Lemma X16_sample_case_copied :
  any [truthy None; truthy (Some "S2023-61078"); truthy None] = true
  /\ exists token self1 w1 response j listed items,
       get_bearer_token Sample.good (Sample.client (100 * MICROSECOND)) (draw Sample.start)
       = (Ok token, self1, w1)
       /\ respond Sample.good (sent w1)
            (cases_request token (uuid4 Sample.good (draws Sample.start))
               None (Some "S2023-61078") None)
          = Some response
       /\ ok response = true
       /\ parsed response = Some j
       /\ subscript j "cases" = Ok listed
       /\ iterate listed = Ok items
       /\ Forall2 copies_case items
            match outcome (get_cases Sample.good None (Some "S2023-61078") None
                             (Sample.client (100 * MICROSECOND)) Sample.start) with
            | Ok cases => cases
            | Raise _ => []
            end.
Proof.
  apply (X16_cases_are_copied_field_by_field Sample.good None (Some "S2023-61078") None
           (Sample.client (100 * MICROSECOND)) Sample.start).
  reflexivity.
Defined.

(** *** Address lookup, download, attach *)

(** X17: the address lookup is a GET without body whose address carries
    the drawn uuid and the [cpr] argument, character for character, in its
    query string.  Answered without error status, it returns the JSON body as
    it is, whatever its shape, and raises [JSONDecodeError] when the body is
    not JSON. *)
Theorem X17_address_lookup_returns_the_body :
  forall (E : Env) (cpr : string) (self self1 : NovaESDH) (w w1 : World)
         (token : json) (response : Response),
    get_bearer_token E self (draw w) = (Ok token, self1, w1) ->
    respond E (sent w1) (address_request token (uuid4 E (draws w)) cpr) = Some response ->
    ok response = true ->
    get_address_by_cpr E cpr self w
    = (match parsed response with
       | Some j => Ok j
       | None => Raise JSONDecodeError
       end, self1, log (address_request token (uuid4 E (draws w)) cpr) w1)
    /\ verb (address_request token (uuid4 E (draws w)) cpr) = GET
    /\ payload (address_request token (uuid4 E (draws w)) cpr) = NoBody
    /\ url (address_request token (uuid4 E (draws w)) cpr)
       = "https://cap-novaapi.kmd.dk/api/Cpr/GetAddressByCpr?TransactionId="
         ++ uuid4 E (draws w) ++ "&Cpr=" ++ cpr ++ "&api-version=1.0-Cpr".
Proof.
  intros E cpr self self1 w w1 token response Htoken Hrespond Hok.
  split; [| now repeat split].
  rewrite get_address_by_cpr_guarded.
  rewrite (guarded_call_answer E _ _ _ _ _ _ _ _ tt _ Htoken eq_refl Hrespond).
  cbn [bind Monad_result result_bind]. now rewrite (raise_for_status_ok _ Hok).
Qed.

(** The sample address lookup. *)
Lemma X17_sample_address :
  get_address_by_cpr Scenario.address_server "0101011111"
    (Sample.client (100 * MICROSECOND)) Sample.start
  = (Ok Scenario.address, Sample.client (100 * MICROSECOND),
     log (address_request (JStr "tok-old") "uuid-0" "0101011111")
       (tick (draw Sample.start))).
Proof.
  apply (X17_address_lookup_returns_the_body Scenario.address_server "0101011111"
           (Sample.client (100 * MICROSECOND)) (Sample.client (100 * MICROSECOND))
           Sample.start (tick (draw Sample.start)) (JStr "tok-old")
           {| status_code := 200; content := []; parsed := Some Scenario.address |});
    reflexivity.
Defined.

(** X18: a download returns the bytes of the answer, all of them and in
    order, whether or not they are JSON; its request names the document under
    [common.uuid], and an omitted [checkout] and [checkout_comment] go out as
    [False] and null. *)
Theorem X18_download_returns_the_bytes :
  forall (E : Env) (document_uuid : string) (checkout : option bool)
         (checkout_comment : option string) (self self1 : NovaESDH) (w w1 : World)
         (token : json) (response : Response),
    get_bearer_token E self (draw w) = (Ok token, self1, w1) ->
    respond E (sent w1)
      (download_request token (uuid4 E (draws w)) document_uuid
         (match checkout with Some b => b | None => false end) checkout_comment)
    = Some response ->
    ok response = true ->
    download_document_file E document_uuid checkout checkout_comment self w
    = (Ok (content response), self1,
       log (download_request token (uuid4 E (draws w)) document_uuid
              (match checkout with Some b => b | None => false end) checkout_comment)
         w1)
    /\ payload (download_request token (uuid4 E (draws w)) document_uuid
                 (match checkout with Some b => b | None => false end) checkout_comment)
       = JsonData (JDict [
           ("common", JDict [("transactionId", JStr (uuid4 E (draws w)));
                             ("uuid", JStr document_uuid)]);
           ("checkOutDocument",
            JBool (match checkout with Some b => b | None => false end));
           ("checkOutComment",
            match checkout_comment with Some s => JStr s | None => JNull end)]).
Proof.
  intros E document_uuid checkout checkout_comment self self1 w w1 token response
         Htoken Hrespond Hok.
  split; [| now destruct checkout_comment].
  rewrite download_document_file_guarded.
  rewrite (guarded_call_answer E _ _ _ _ _ _ _ _ tt _ Htoken eq_refl Hrespond).
  cbn [bind ret Monad_result result_bind]. now rewrite (raise_for_status_ok _ Hok).
Qed.

(** The sample download of three bytes that are not JSON. *)
Lemma X18_sample_download :
  download_document_file Scenario.file_server "d-1" None None
    (Sample.client (100 * MICROSECOND)) Sample.start
  = (Ok [Byte.x25; Byte.x50; Byte.x44], Sample.client (100 * MICROSECOND),
     log (download_request (JStr "tok-old") "uuid-0" "d-1" false None)
       (tick (draw Sample.start))).
Proof.
  apply (X18_download_returns_the_bytes Scenario.file_server "d-1" None None
           (Sample.client (100 * MICROSECOND)) (Sample.client (100 * MICROSECOND))
           Sample.start (tick (draw Sample.start)) (JStr "tok-old")
           {| status_code := 200; content := [Byte.x25; Byte.x50; Byte.x44];
              parsed := None |});
    reflexivity.
Defined.

(** X19: attaching looks at six fields of the document only.  Two
    documents with the same uuid, title, sensitivity, type, description and
    approval are attached in the same way, request by request, whatever their
    [document_date] and [file_extension]. *)
Theorem X19_attach_ignores_date_and_extension :
  forall (E : Env) (case_uuid : string) (document document' : NovaDocument.t)
         (unit_id : option Z) (unit_name : option string)
         (self : NovaESDH) (w : World),
    same_metadata document document' ->
    attach_document_to_case E case_uuid document unit_id unit_name self w
    = attach_document_to_case E case_uuid document' unit_id unit_name self w.
Proof.
  intros E case_uuid document document' unit_id unit_name self w
         (Huuid & Htitle & Hsensitivity & Htype & Hdescription & Happroved).
  unfold attach_document_to_case, attach_payload.
  now rewrite Huuid, Htitle, Hsensitivity, Htype, Hdescription, Happroved.
Qed.

(** The sample letter and the same letter with another date and extension. *)
Lemma X19_redated_letter :
  attach_document_to_case Sample.good "c-1" Sample.letter None None
    (Sample.client (100 * MICROSECOND)) Sample.start
  = attach_document_to_case Sample.good "c-1" Scenario.redated_letter None None
      (Sample.client (100 * MICROSECOND)) Sample.start.
Proof.
  apply (X19_attach_ignores_date_and_extension Sample.good "c-1"
           Sample.letter Scenario.redated_letter None None
           (Sample.client (100 * MICROSECOND)) Sample.start).
  now repeat split.
Defined.

(** *** No [AttributeError] *)

Create HintDb raises.

Lemma subscript_raises v k : subscript v k = Raise AttributeError -> False.
Proof. destruct v; cbn; try discriminate. now destruct (dict_lookup kvs k). Qed.

Lemma subscript2_raises v k1 k2 : subscript2 v k1 k2 = Raise AttributeError -> False.
Proof.
  unfold subscript2. cbn [bind Monad_result result_bind].
  destruct (subscript v k1) eqn:H; [apply subscript_raises |].
  intros [= ->]. exact (subscript_raises _ _ H).
Qed.

Lemma iterate_raises v : iterate v = Raise AttributeError -> False.
Proof. now destruct v. Qed.

Lemma raise_for_status_raises response :
  raise_for_status response = Raise AttributeError -> False.
Proof.
  unfold raise_for_status.
  now destruct ((400 <=? status_code response) && (status_code response <? 600)).
Qed.

Lemma json_of_raises response : json_of response = Raise AttributeError -> False.
Proof. unfold json_of. now destruct (parsed response). Qed.

Lemma int_raises parse v : int parse v = Raise AttributeError -> False.
Proof.
  destruct v; cbn; try discriminate.
  - now destruct f.
  - now destruct (parse s).
Qed.

Lemma timedelta_raises n : timedelta n = Raise AttributeError -> False.
Proof.
  unfold timedelta.
  now destruct ((- TIMEDELTA_MAX_DAYS <=? n / 86400) && (n / 86400 <=? TIMEDELTA_MAX_DAYS)).
Qed.

Lemma datetime_add_raises t delta : datetime_add t delta = Raise AttributeError -> False.
Proof.
  unfold datetime_add. now destruct ((0 <=? t + delta) && (t + delta <=? DATETIME_MAX)).
Qed.

Lemma for_each_raises {A B} (f : A -> result B) xs :
  (forall x, f x = Raise AttributeError -> False) ->
  for_each f xs = Raise AttributeError -> False.
Proof.
  intros Hf. induction xs as [| x xs IH]; cbn; [discriminate |].
  destruct (f x) eqn:Hx; [| intros [= ->]; exact (Hf _ Hx)].
  destruct (for_each f xs); [discriminate |].
  intros [= ->]. now apply IH.
Qed.

(** [party_dict.get] comes after three subscripts of [party_dict], which
    only a dict survives. *)
Lemma party_of_raises party_dict : party_of party_dict = Raise AttributeError -> False.
Proof.
  unfold party_of. destruct party_dict; cbn; try discriminate.
  repeat match goal with
  | |- context [dict_lookup kvs ?k] => destruct (dict_lookup kvs k); cbn
  end; discriminate.
Qed.

Lemma document_of_raises document_dict :
  document_of document_dict = Raise AttributeError -> False.
Proof.
  unfold document_of. destruct document_dict; cbn; try discriminate.
  repeat match goal with
  | |- context [dict_lookup kvs ?k] => destruct (dict_lookup kvs k); cbn
  end; discriminate.
Qed.

#[local] Hint Resolve subscript_raises subscript2_raises iterate_raises
  raise_for_status_raises json_of_raises int_raises timedelta_raises
  datetime_add_raises party_of_raises document_of_raises : raises.

(** One step of a computation in [result]: either it raised, and not
    [AttributeError], or the computation goes on. *)
Ltac step_raises :=
  match goal with
  | |- context [result_bind ?r _] =>
      let H := fresh "H" in
      destruct r eqn:H; cbn [bind ret Monad_result result_bind];
      [| intros [= ->]; eauto with raises]
  end.

Lemma case_of_raises case_dict : case_of case_dict = Raise AttributeError -> False.
Proof.
  unfold case_of. cbn [bind ret Monad_result result_bind].
  do 2 step_raises.
  match goal with
  | |- context [for_each party_of ?items] =>
      destruct (for_each party_of items) eqn:Hparties;
      cbn [bind ret Monad_result result_bind];
      [| intros [= ->]; exact (for_each_raises _ _ party_of_raises Hparties)]
  end.
  repeat step_raises. discriminate.
Qed.

Lemma cases_of_raises j : cases_of j = Raise AttributeError -> False.
Proof.
  unfold cases_of. cbn [bind ret Monad_result result_bind].
  do 2 step_raises. apply for_each_raises, case_of_raises.
Qed.

Lemma documents_of_raises j : documents_of j = Raise AttributeError -> False.
Proof.
  unfold documents_of. cbn [bind ret Monad_result result_bind].
  do 2 step_raises. apply for_each_raises, document_of_raises.
Qed.

#[local] Hint Resolve cases_of_raises documents_of_raises : raises.

Lemma digest_of_raises (E : Env) c w response :
  digest_of E c w response = Raise AttributeError -> False.
Proof.
  destruct c; cbn [digest_of bind ret Monad_result result_bind];
    repeat step_raises; eauto with raises; discriminate.
Qed.

Lemma prepared_raises (E : Env) c : prepared E c = Raise AttributeError -> False.
Proof.
  destruct c; cbn; try discriminate. now destruct (open_rb E document_path).
Qed.

(** With the credentials assigned, [_get_new_token] has no attribute to
    miss. *)
Lemma get_new_token_raises (E : Env) self w :
  (exists id, client_id self = Some id) ->
  (exists secret, client_secret self = Some secret) ->
  outcome (_get_new_token E self w) = Raise AttributeError -> False.
Proof.
  intros [id Hid] [secret Hsecret].
  unfold _get_new_token, requests_post, send. mstep. rewrite Hsecret, Hid.
  destruct (respond E (sent w) _) as [response |]; [| discriminate].
  destruct (raise_for_status response) eqn:H1; [| intros [= ->]; eauto with raises].
  destruct (json_of response) as [j |] eqn:H2; [| intros [= ->]; eauto with raises].
  destruct (subscript j "access_token") eqn:H3; [| intros [= ->]; eauto with raises].
  destruct (subscript j "expires_in") as [v |] eqn:H4;
    [| intros [= ->]; eauto with raises].
  destruct (int (int_of_str E) v) as [n |] eqn:H5; [| intros [= ->]; eauto with raises].
  destruct (timedelta n) as [d |] eqn:H6; [| intros [= ->]; eauto with raises].
  destruct (datetime_add _ d) eqn:H7; [discriminate | intros [= ->]; eauto with raises].
Qed.

Lemma get_bearer_token_raises (E : Env) self w :
  constructed self ->
  outcome (get_bearer_token E self w) = Raise AttributeError -> False.
Proof.
  intros (Hid & Hsecret & [token Htoken] & [expiry [Hexpiry _]]).
  destruct (refresh_due self (now E (ticks w))) eqn:Hdue.
  - rewrite (get_bearer_token_refresh E self w Hdue).
    pose proof (get_new_token_raises E self (tick w) Hid Hsecret) as Hnew.
    destruct (_get_new_token E self (tick w)) as [[[p | e] self'] w'];
      [discriminate |].
    unfold outcome in *. cbn [fst] in *. intros [= ->]. now apply Hnew.
  - rewrite (get_bearer_token_cached E self w Hdue), Hexpiry, Htoken.
    destruct (datetime_add expiry THIRTY_SECONDS) eqn:Hadd; [discriminate |].
    unfold outcome. cbn [fst]. intros [= ->]. eauto with raises.
Qed.

(** X20: a constructed client never raises [AttributeError], in none of
    the six operations: its attributes are all assigned, and the two calls of
    [.get] on an item of an answer are reached only by a dict. *)
Theorem X20_constructed_client_never_raises_AttributeError :
  forall (E : Env) (c : call) (self : NovaESDH) (w : World),
    constructed self ->
    outcome (perform E c self w) <> Raise AttributeError.
Proof.
  intros E c self w Hc. destruct (accepted c) eqn:Haccepted.
  - rewrite (perform_guarded E c self w Haccepted), guarded_call_eq.
    pose proof (get_bearer_token_raises E self (entry c w) Hc) as Htoken.
    destruct (get_bearer_token E self (entry c w)) as [[[token | e] self1] w1];
      [| unfold outcome in *; cbn [fst] in *; intros [= ->]; now apply Htoken].
    destruct (prepared E c) as [file | e] eqn:Hfile;
      [| unfold outcome; cbn [fst]; intros [= ->]; exact (prepared_raises E c Hfile)].
    destruct (respond E (sent w1) (request_of E c w token file)) as [response |];
      [| discriminate].
    unfold outcome. cbn [fst]. exact (digest_of_raises E c w response).
  - destruct c; try discriminate. cbn [accepted perform] in *.
    now rewrite (get_cases_rejected E _ _ _ _ _ Haccepted).
Qed.

(** The sample client is constructed; its search for a case raises nothing
    of the kind. *)
Lemma X20_sample_search :
  outcome (get_cases Sample.good None (Some "S2023-61078") None
             (Sample.client (100 * MICROSECOND)) Sample.start)
  <> Raise AttributeError.
Proof.
  apply (X20_constructed_client_never_raises_AttributeError Sample.good
           (Cases None (Some "S2023-61078") None)
           (Sample.client (100 * MICROSECOND)) Sample.start).
  split; [now exists "id" |]. split; [now exists "secret" |].
  split; [now exists (JStr "tok-old") |].
  exists (Sample.T0 + 100 * MICROSECOND). split; [reflexivity |]. split; discriminate.
Defined.

(** *** Construction, then an operation *)

Lemma new_sent (E : Env) id secret w :
  sent (snd (new E id secret w)) = (sent w ++ [token_request id secret])%list.
Proof.
  unfold new. rewrite init_eq.
  unfold _get_new_token, requests_post, send. mstep.
  cbn [client_id client_secret]. fold (token_request id secret).
  destruct (respond E (sent w) (token_request id secret)) as [response |];
    [| reflexivity].
  destruct (raise_for_status response); [| reflexivity].
  destruct (json_of response) as [j |]; [| reflexivity].
  destruct (subscript j "access_token"); [| reflexivity].
  destruct (subscript j "expires_in") as [v |]; [| reflexivity].
  destruct (int (int_of_str E) v) as [n |]; [| reflexivity].
  destruct (timedelta n) as [d |]; [| reflexivity].
  now destruct (datetime_add (now E (ticks (log (token_request id secret) w))) d).
Qed.

Lemma new_Ok (E : Env) id secret w self w1 :
  new E id secret w = (Ok self, w1) ->
  exists token expiry,
    self = {| client_id := Some id; client_secret := Some secret;
              _bearer_token := Some token; token_expiry_date := Some expiry |}
    /\ valid_datetime expiry.
Proof.
  unfold new. rewrite init_eq.
  destruct (get_new_token_frame E
              {| client_id := Some id; client_secret := Some secret;
                 _bearer_token := None; token_expiry_date := None |} w)
    as (Hself & _ & _).
  destruct (_get_new_token E _ w) as [[[[token expiry] | e] self'] w'] eqn:Hnew;
    [| discriminate].
  mstep. subst self'. intros [= <- <-].
  exists token, expiry. split; [reflexivity |].
  exact (get_new_token_valid E _ _ _ _ _ _ Hnew).
Qed.

Lemma perform_with_current_token (E : Env) c self w expiry token file :
  accepted c = true ->
  token_expiry_date self = Some expiry ->
  _bearer_token self = Some token ->
  0 <= expiry + THIRTY_SECONDS <= DATETIME_MAX ->
  now E (ticks (entry c w)) <= expiry + THIRTY_SECONDS ->
  prepared E c = Ok file ->
  perform E c self w
  = (match respond E (sent w) (request_of E c w token file) with
     | Some response => digest_of E c w response
     | None => Raise ConnectionError
     end, self, log (request_of E c w token file) (tick (entry c w))).
Proof.
  intros Haccepted Hexpiry Htoken Hrange Hnow Hfile.
  assert (Hdue : refresh_due self (now E (ticks (entry c w))) = false).
  { unfold refresh_due. rewrite Hexpiry, (datetime_add_in_range _ _ Hrange).
    now apply Z.ltb_ge. }
  rewrite (perform_guarded E c self w Haccepted), guarded_call_eq.
  rewrite (get_bearer_token_cached E self (entry c w) Hdue).
  rewrite Hexpiry, (datetime_add_in_range _ _ Hrange), Htoken, Hfile.
  cbn [sent tick]. now rewrite sent_entry.
Qed.

(** X21: construction, then an operation.  A client that the constructor
    has handed out, used for a call that is accepted (any call but a case
    search without terms) and has what it needs prepared (the file of an
    upload opens), with a clock reading at most 30 seconds past the expiry it
    stores, sends the request of the operation with the token of its
    construction: the two requests since the start are the token request of
    the constructor and the request of the operation, and the client is the
    one the constructor made. *)
Theorem X21_construct_then_operate :
  forall (E : Env) (id secret : string) (c : call) (self : NovaESDH) (w w1 : World)
         (token : json) (expiry : datetime) (file : list Byte.byte),
    new E id secret w = (Ok self, w1) ->
    _bearer_token self = Some token ->
    token_expiry_date self = Some expiry ->
    expiry + THIRTY_SECONDS <= DATETIME_MAX ->
    now E (ticks (entry c w1)) <= expiry + THIRTY_SECONDS ->
    accepted c = true ->
    prepared E c = Ok file ->
    issued w (world_after (perform E c self w1))
    = [token_request id secret; request_of E c w1 token file]
    /\ self_after (perform E c self w1) = self
    /\ In ("Authorization", Bearer token) (headers (request_of E c w1 token file)).
Proof.
  intros E id secret c self w w1 token expiry file
         Hnew Htoken Hexpiry Hmax Hnow Haccepted Hfile.
  destruct (new_Ok E id secret w self w1 Hnew) as (token' & expiry' & -> & [Hlow _]).
  cbn in Htoken, Hexpiry. injection Htoken as ->. injection Hexpiry as ->.
  assert (Hrange : 0 <= expiry + THIRTY_SECONDS <= DATETIME_MAX)
    by (unfold THIRTY_SECONDS, MICROSECOND in *; lia).
  rewrite (perform_with_current_token E c
             {| client_id := Some id; client_secret := Some secret;
                _bearer_token := Some token; token_expiry_date := Some expiry |}
             w1 expiry token file Haccepted eq_refl eq_refl Hrange Hnow Hfile).
  split; [| split; [reflexivity | apply request_of_authorized]].
  apply issued_app. cbn [world_after snd log sent tick]. rewrite sent_entry.
  pose proof (new_sent E id secret w) as Hsent. rewrite Hnew in Hsent.
  cbn [snd] in Hsent. rewrite Hsent, <- app_assoc. reflexivity.
Qed.

(** The sample construction followed by a document list. *)
Lemma X21_sample_construct_then_list :
  issued Sample.start
    (world_after (get_documents Sample.good "c-1"
                    (with_token
                       {| client_id := Some "id"; client_secret := Some "secret";
                          _bearer_token := None; token_expiry_date := None |}
                       (JStr "tok-new") (Sample.T0 + 3600 * MICROSECOND))
                    (tick (log (token_request "id" "secret") Sample.start))))
  = [token_request "id" "secret"; documents_request (JStr "tok-new") "uuid-0" "c-1"].
Proof.
  apply (X21_construct_then_operate Sample.good "id" "secret" (Documents "c-1")
           _ Sample.start (tick (log (token_request "id" "secret") Sample.start))
           (JStr "tok-new") (Sample.T0 + 3600 * MICROSECOND) []);
    try reflexivity; discriminate.
Defined.

(** *** The search terms on the wire *)

(** X22: an accepted case search for which the token is obtained sends
    exactly one search request; its body carries the three terms as they were
    given, a missing one as null and an empty one as the empty string, under
    [caseAttributes.userFriendlyCaseNumber], [caseAttributes.title] and
    [caseParty.identification], and names [CprNummer] as identification type
    whether or not a cpr is given. *)
Theorem X22_search_terms_go_out_as_given :
  forall (E : Env) (cpr case_number case_title : option string)
         (self : NovaESDH) (w : World) (token : json),
    any [truthy cpr; truthy case_number; truthy case_title] = true ->
    outcome (get_bearer_token E self (draw w)) = Ok token ->
    exists r body,
      filter (to get_cases_url)
        (issued w (world_after (get_cases E cpr case_number case_title self w))) = [r]
      /\ verb r = PUT
      /\ payload r = JsonData body
      /\ subscript2 body "caseAttributes" "userFriendlyCaseNumber"
         = Ok (match case_number with Some s => JStr s | None => JNull end)
      /\ subscript2 body "caseAttributes" "title"
         = Ok (match case_title with Some s => JStr s | None => JNull end)
      /\ subscript2 body "caseParty" "identification"
         = Ok (match cpr with Some s => JStr s | None => JNull end)
      /\ subscript2 body "caseParty" "identificationType" = Ok (JStr "CprNummer")
      /\ subscript2 body "common" "transactionId" = Ok (JStr (uuid4 E (draws w))).
Proof.
  intros E cpr case_number case_title self w token Hany Htoken.
  rewrite (get_cases_guarded E _ _ _ _ _ Hany).
  change (issued w) with (issued (draw w)).
  rewrite (guarded_call_own_requests E _ _ _ get_cases_url);
    [| reflexivity | reflexivity].
  unfold own_request. rewrite Htoken.
  eexists. eexists. split; [reflexivity |]. split; [reflexivity |].
  split; [reflexivity |].
  destruct cpr, case_number, case_title; now repeat split.
Qed.

(** A search by case number with an empty cpr. *)
Lemma X22_sample_search_terms :
  exists r body,
    filter (to get_cases_url)
      (issued Sample.start
         (world_after (get_cases Sample.good (Some "") (Some "S2023-61078") None
                         (Sample.client (100 * MICROSECOND)) Sample.start))) = [r]
    /\ verb r = PUT
    /\ payload r = JsonData body
    /\ subscript2 body "caseAttributes" "userFriendlyCaseNumber"
       = Ok (JStr "S2023-61078")
    /\ subscript2 body "caseAttributes" "title" = Ok JNull
    /\ subscript2 body "caseParty" "identification" = Ok (JStr "")
    /\ subscript2 body "caseParty" "identificationType" = Ok (JStr "CprNummer")
    /\ subscript2 body "common" "transactionId" = Ok (JStr (uuid4 Sample.good 0)).
Proof.
  apply (X22_search_terms_go_out_as_given Sample.good (Some "") (Some "S2023-61078") None
           (Sample.client (100 * MICROSECOND)) Sample.start (JStr "tok-old"));
    reflexivity.
Defined.
